(** * NC Lottery strategy monitor: the analysis and scoring engine

    A shallow embedding of the scoring core of [nc_lottery_million_monitor.py]
    (the [PrizeTier] and [GameData] classes, [calculate_composite_score],
    [categorize_game] and the ranking lines of [generate_html_report]),
    of the row loop of [parse_game_section] with [parse_prize_value] and
    [parse_number], of [get_million_plus_games], and of the age line, the
    million tier breakdown and the top five summary of the report,
    followed by the properties the specification states about it and by
    further properties of the code.

    Modelling conventions.
    - A Python [float] is an IEEE 754 binary64 number: Rocq's primitive
      [float], whose operations round exactly as CPython's do.
    - A Python [int] is an unbounded integer: [Z].  An [int] that only ever
      meets floats in arithmetic or comparisons ([0], [100], [70], ...) is
      written as the float it converts to; all such constants are exact.
    - [int / int] is Python's true division: the quotient correctly rounded
      to binary64, [ZeroDivisionError] on a zero divisor and [OverflowError]
      when the rounded quotient does not fit a float.
    - Exceptions are threaded through the [result] monad. *)

From Stdlib Require Import ZArith List String Floats Lia Bool.
From Stdlib Require Import Permutation Sorted.
From Stdlib Require Import Ascii DecimalString.
Import ListNotations.

#[local] Set Warnings "-inexact-float".

(** ** Exceptions *)

Inductive exn : Type :=
  | ZeroDivisionError
  | OverflowError.

Inductive result (A : Type) : Type :=
  | Ok (a : A)
  | Raise (e : exn).

Arguments Ok {A} a.
Arguments Raise {A} e.

Definition bind {A B : Type} (m : result A) (k : A -> result B) : result B :=
  match m with
  | Ok a => k a
  | Raise e => Raise e
  end.

Declare Scope result_scope.
Delimit Scope result_scope with result.
Notation "x <- m ;; k" := (bind m (fun x => k))
  (at level 61, m at next level, right associativity) : result_scope.
Notation "' p <- m ;; k" := (bind m (fun x => match x with p => k end))
  (at level 61, p pattern, m at next level, right associativity) : result_scope.

Definition raises {A : Type} (m : result A) : Prop :=
  exists e, m = Raise e.

(** ** The Python built-ins the engine calls *)

Module Py.

(** An [int] as the exact binary value true division starts from. *)
Definition Z2SF (z : Z) : spec_float :=
  match z with
  | Z0 => S754_zero false
  | Zpos p => S754_finite false p 0
  | Zneg p => S754_finite true p 0
  end.

(** The quotient [a / b] rounded once, to nearest even, into binary64. *)
Definition rounded_quotient (a b : Z) : spec_float :=
  SFdiv prec emax (Z2SF a) (Z2SF b).

(** [a / b] on two [int]s. *)
Definition int_truediv (a b : Z) : result float :=
  if (b =? 0)%Z then Raise ZeroDivisionError
  else
    match rounded_quotient a b with
    | S754_infinity _ => Raise OverflowError
    | q => Ok (SF2Prim q)
    end.

(** [sum(...)] over [int]s. *)
Definition sum (l : list Z) : Z := fold_left Z.add l 0%Z.

(** [max(a, b)] and [min(a, b)]: the first argument is kept unless the
    second compares strictly beyond it. *)
Definition max2 (a b : float) : float := if (a <? b)%float then b else a.
Definition min2 (a b : float) : float := if (b <? a)%float then b else a.

Section ByKey.
Context {A : Type} (key : A -> float).

(** [max(iterable, key=...)] once the first item is in hand: a later item
    replaces the current one only when its key is strictly greater. *)
Fixpoint max_from (best : A) (l : list A) : A :=
  match l with
  | [] => best
  | x :: l' =>
      if (key best <? key x)%float then max_from x l' else max_from best l'
  end.

(** [min(iterable, key=...)], likewise with strictly smaller. *)
Fixpoint min_from (best : A) (l : list A) : A :=
  match l with
  | [] => best
  | x :: l' =>
      if (key x <? key best)%float then min_from x l' else min_from best l'
  end.

(** [list.sort(key=..., reverse=True)] by its contract: a stable sort
    into descending key order, comparing keys with [<] only.  An item
    goes in front of the first item whose key is not strictly greater,
    so items with equal keys keep the order they came in. *)
Fixpoint insert_desc (x : A) (l : list A) : list A :=
  match l with
  | [] => [x]
  | y :: l' =>
      if (key x <? key y)%float then y :: insert_desc x l' else x :: y :: l'
  end.

Fixpoint sort_reverse (l : list A) : list A :=
  match l with
  | [] => []
  | x :: l' => insert_desc x (sort_reverse l')
  end.
End ByKey.

End Py.

(** ** [PrizeTier] *)

Record PrizeTier : Type := mkPrizeTier {
  value : float;
  total : Z;
  remaining : Z
}.

Definition percent_remaining (self : PrizeTier) : result float :=
  if (total self =? 0)%Z then Ok 0%float
  else (q <- Py.int_truediv (remaining self) (total self) ;;
        Ok (q * 100)%float)%result.

Definition is_million_plus (self : PrizeTier) : bool :=
  (1000000 <=? value self)%float.

Definition is_break_even_tier (self : PrizeTier) (ticket_price : float) : bool :=
  let floor := (ticket_price * 2)%float in
  let ceiling := (ticket_price * 10)%float in
  (floor <=? value self)%float && (value self <=? ceiling)%float.

Definition is_small_win_tier (self : PrizeTier) : bool :=
  (500 <=? value self)%float && (value self <=? 1000)%float.

Definition is_medium_win_tier (self : PrizeTier) : bool :=
  (2000 <=? value self)%float && (value self <=? 10000)%float.

(** ** [GameData] *)

Record GameData : Type := mkGameData {
  game_number : string;
  game_name : string;
  ticket_price : float;
  url : string;
  start_date : option string;
  status : string;
  prize_tiers : list PrizeTier
}.

Definition get_top_prize (self : GameData) : option PrizeTier :=
  match prize_tiers self with
  | [] => None
  | t :: rest => Some (Py.max_from value t rest)
  end.

Definition get_bottom_prize (self : GameData) : option PrizeTier :=
  match prize_tiers self with
  | [] => None
  | t :: rest => Some (Py.min_from value t rest)
  end.

Definition get_million_plus_tiers (self : GameData) : list PrizeTier :=
  filter is_million_plus (prize_tiers self).

Definition get_break_even_tiers (self : GameData) : list PrizeTier :=
  filter (fun t => is_break_even_tier t (ticket_price self)) (prize_tiers self).

Definition get_small_win_tiers (self : GameData) : list PrizeTier :=
  filter is_small_win_tier (prize_tiers self).

Definition get_medium_win_tiers (self : GameData) : list PrizeTier :=
  filter is_medium_win_tier (prize_tiers self).

Definition calculate_differential (self : GameData) : result float :=
  match get_top_prize self, get_bottom_prize self with
  | Some top, Some bottom =>
      (top_pct <- percent_remaining top ;;
       bottom_pct <- percent_remaining bottom ;;
       Ok (top_pct - bottom_pct)%float)%result
  | _, _ => Ok 0%float
  end.

Definition calculate_million_health (self : GameData) : result (Z * Z * float) :=
  match get_million_plus_tiers self with
  | [] => Ok (0%Z, 0%Z, 0%float)
  | million_tiers =>
      let total := Py.sum (map total million_tiers) in
      let remaining := Py.sum (map remaining million_tiers) in
      (pct <- (if (0 <? total)%Z
               then (q <- Py.int_truediv remaining total ;; Ok (q * 100)%float)
               else Ok 0%float) ;;
       Ok (remaining, total, pct))%result
  end.

Definition calculate_loss_minimization_score (self : GameData) : result float :=
  (be_pct <-
     match get_break_even_tiers self with
     | [] => Ok 0%float
     | break_even =>
         let be_total := Py.sum (map total break_even) in
         let be_remaining := Py.sum (map remaining break_even) in
         if (0 <? be_total)%Z
         then (q <- Py.int_truediv be_remaining be_total ;; Ok (q * 100)%float)
         else Ok 0%float
     end ;;
   sw_pct <-
     match get_small_win_tiers self with
     | [] => Ok 0%float
     | small_wins =>
         let sw_total := Py.sum (map total small_wins) in
         let sw_remaining := Py.sum (map remaining small_wins) in
         if (0 <? sw_total)%Z
         then (q <- Py.int_truediv sw_remaining sw_total ;; Ok (q * 100)%float)
         else Ok 0%float
     end ;;
   mw_pct <-
     match get_medium_win_tiers self with
     | [] => Ok 0%float
     | medium_wins =>
         let mw_total := Py.sum (map total medium_wins) in
         let mw_remaining := Py.sum (map remaining medium_wins) in
         if (0 <? mw_total)%Z
         then (q <- Py.int_truediv mw_remaining mw_total ;; Ok (q * 100)%float)
         else Ok 0%float
     end ;;
   let score := ((be_pct * 0.50) + (sw_pct * 0.30) + (mw_pct * 0.20))%float in
   Ok score)%result.

Definition calculate_bottom_depletion (self : GameData) : result float :=
  match get_bottom_prize self with
  | None => Ok 0%float
  | Some bottom => percent_remaining bottom
  end.

Definition has_million_plus (self : GameData) : bool :=
  (0 <? List.length (get_million_plus_tiers self))%nat.

(** ** Game age

    [days_since_launch] reads the wall clock and parses dates with
    [datetime.strptime]; both are outside the engine.  They are taken as
    the environment of the section: [strptime s fmt] is the parsed date, or
    [None] where Python raises [ValueError], and [days_until_now launch] is
    [(datetime.now() - launch).days]. *)

Section Engine.

Variable datetime : Type.
Variable strptime : string -> string -> option datetime.
Variable days_until_now : datetime -> Z.

Definition date_formats : list string :=
  ["%b %d, %Y"; "%m/%d/%Y"; "%Y-%m-%d"]%string.

Fixpoint first_parsed (date_string : string) (formats : list string) : option Z :=
  match formats with
  | [] => None
  | fmt :: formats' =>
      match strptime date_string fmt with
      | Some launch => Some (days_until_now launch)
      | None => first_parsed date_string formats'
      end
  end.

Definition days_since_launch (self : GameData) : option Z :=
  match start_date self with
  | None => None
  | Some EmptyString => None
  | Some date_string => first_parsed date_string date_formats
  end.

(** ** Scoring *)

Definition calculate_composite_score (game : GameData) : result float :=
  ('(_, _, million_pct) <- calculate_million_health game ;;
   loss_min_score <- calculate_loss_minimization_score game ;;
   diff <- calculate_differential game ;;
   let diff_normalized :=
     Py.max2 0 (Py.min2 100 ((diff + 30) * (100 / 60)))%float in
   let freshness :=
     match days_since_launch game with
     | Some days =>
         if (days <? 30)%Z then 100%float
         else if (days <? 90)%Z then 75%float
         else if (days <? 180)%Z then 50%float
         else 25%float
     | None => 50%float
     end in
   let score :=
     (million_pct * 0.40 +
      loss_min_score * 0.30 +
      diff_normalized * 0.20 +
      freshness * 0.10)%float in
   Ok score)%result.

Definition categorize_game (game : GameData) : result string :=
  ('(_, _, million_pct) <- calculate_million_health game ;;
   bottom_pct <- calculate_bottom_depletion game ;;
   diff <- calculate_differential game ;;
   if (70 <=? million_pct)%float && (0 <? diff)%float then Ok "HOT"%string
   else if (bottom_pct + 10 <? million_pct)%float then Ok "HOT"%string
   else if (million_pct <? 30)%float then Ok "AVOID"%string
   else if (million_pct <? bottom_pct - 15)%float then Ok "AVOID"%string
   else Ok "WATCH"%string)%result.

(** ** Ranking: the first lines of [generate_html_report] *)

Definition scored_game : Type := GameData * float * string.

Definition score_of (x : scored_game) : float := snd (fst x).
Definition category_of (x : scored_game) : string := snd x.

Fixpoint score_all (games : list GameData) : result (list scored_game) :=
  match games with
  | [] => Ok []
  | g :: games' =>
      (s <- calculate_composite_score g ;;
       c <- categorize_game g ;;
       rest <- score_all games' ;;
       Ok ((g, s, c) :: rest))%result
  end.

Definition in_category (label : string) (scored : list scored_game)
  : list (GameData * float) :=
  map fst (filter (fun x => String.eqb (category_of x) label) scored).

Record ranking : Type := mkRanking {
  scored_games : list scored_game;
  hot_games : list (GameData * float);
  watch_games : list (GameData * float);
  avoid_games : list (GameData * float)
}.

Definition rank_games (games : list GameData) : result ranking :=
  (scored <- score_all games ;;
   let scored_games := Py.sort_reverse score_of scored in
   Ok {| scored_games := scored_games;
         hot_games := in_category "HOT" scored_games;
         watch_games := in_category "WATCH" scored_games;
         avoid_games := in_category "AVOID" scored_games |})%result.

End Engine.

(** ** The specification's vocabulary

    These definitions follow the words of the specification, not the code;
    the theorems below compare them with the code above. *)

Module Spec.

(** A percentage over the summed remaining and summed total of a tier
    group, [0] when the group is empty or its summed total is [0]. *)
Definition summed_percent (group : list PrizeTier) : result float :=
  match group with
  | [] => Ok 0%float
  | _ =>
      if (Py.sum (map total group) =? 0)%Z then Ok 0%float
      else (q <- Py.int_truediv (Py.sum (map remaining group))
                                (Py.sum (map total group)) ;;
            Ok (q * 100)%float)%result
  end.

(** [r] is [x] clamped to the interval from [lo] to [hi]. *)
Definition clamped (lo hi x r : float) : Prop :=
  ((lo <=? r)%float = true /\ (r <=? hi)%float = true) /\
  ((x <=? lo)%float = true -> r = lo) /\
  ((hi <=? x)%float = true -> r = hi) /\
  ((lo <? x)%float = true -> (x <? hi)%float = true -> r = x).

(** The freshness step function of the game's age in days. *)
Definition freshness_step (days : option Z) (f : float) : Prop :=
  match days with
  | None => f = 50%float
  | Some d =>
      ((d < 30)%Z -> f = 100%float) /\
      ((30 <= d < 90)%Z -> f = 75%float) /\
      ((90 <= d < 180)%Z -> f = 50%float) /\
      ((180 <= d)%Z -> f = 25%float)
  end.

(** An ordered rule list: the label of the first rule whose condition
    holds, the default when none does. *)
Fixpoint first_match (rules : list (bool * string)) (default : string) : string :=
  match rules with
  | [] => default
  | (condition, label) :: rules' =>
      if condition then label else first_match rules' default
  end.

Definition category_rules (million_pct bottom_depletion differential : float)
  : list (bool * string) :=
  [ ((70 <=? million_pct)%float && (0 <? differential)%float, "HOT"%string);
    ((bottom_depletion + 10 <? million_pct)%float, "HOT"%string);
    ((million_pct <? 30)%float, "AVOID"%string);
    ((million_pct <? bottom_depletion - 15)%float, "AVOID"%string) ].

(** [t] is the first tier of [tiers], in collection order, whose value is
    maximal: every earlier tier is strictly below it, no later one above. *)
Definition first_maximal (tiers : list PrizeTier) (t : PrizeTier) : Prop :=
  exists before after,
    tiers = before ++ t :: after /\
    Forall (fun u => (value u <? value t)%float = true) before /\
    Forall (fun u => (value u <=? value t)%float = true) after.

Definition first_minimal (tiers : list PrizeTier) (t : PrizeTier) : Prop :=
  exists before after,
    tiers = before ++ t :: after /\
    Forall (fun u => (value t <? value u)%float = true) before /\
    Forall (fun u => (value t <=? value u)%float = true) after.

(** Descending order of a key along a list. *)
Definition descending {A : Type} (key : A -> float) (l : list A) : Prop :=
  StronglySorted (fun a b => (key b <=? key a)%float = true) l.

(** [l'] keeps the items of [l] that share a key in the order [l] has
    them. *)
Definition ties_in_order {A : Type} (key : A -> float) (l l' : list A) : Prop :=
  forall k : float,
    filter (fun x => (key x =? k)%float) l' =
    filter (fun x => (key x =? k)%float) l.

(** All values, or all keys, are numbers (none is NaN). *)
Definition numbers {A : Type} (key : A -> float) (l : list A) : Prop :=
  Forall (fun x => is_nan (key x) = false) l.

(** [sub] is the sub-collection of the ranking [ranked] for the category
    [label]: the games of [ranked] in that category and no others, each
    with its score, in the order [ranked] has them. *)
Inductive sub_collection (label : string)
  : list scored_game -> list (GameData * float) -> Prop :=
  | sub_collection_nil : sub_collection label [] []
  | sub_collection_keep (g : GameData) (s : float) ranked sub :
      sub_collection label ranked sub ->
      sub_collection label ((g, s, label) :: ranked) ((g, s) :: sub)
  | sub_collection_skip (g : GameData) (s : float) (c : string) ranked sub :
      c <> label ->
      sub_collection label ranked sub ->
      sub_collection label ((g, s, c) :: ranked) sub.

End Spec.

(** ** Ranks of binary64 numbers

    Used to reason about the comparison primitives. *)

Module FloatRank.

(** The position of a non-NaN float in the order of [SFcompare]. *)
Definition rank (x : spec_float) : Z * Z * Z :=
  match x with
  | S754_nan => (0, 0, 0)%Z
  | S754_zero _ => (0, 0, 0)%Z
  | S754_infinity true => (-2, 0, 0)%Z
  | S754_infinity false => (2, 0, 0)%Z
  | S754_finite false m e => (1, e, Zpos m)%Z
  | S754_finite true m e => (-1, - e, Zneg m)%Z
  end.

Definition lex (a b : Z * Z * Z) : comparison :=
  let '(a1, a2, a3) := a in
  let '(b1, b2, b3) := b in
  match (a1 ?= b1)%Z with
  | Eq => match (a2 ?= b2)%Z with Eq => (a3 ?= b3)%Z | c => c end
  | c => c
  end.

Definition lex_lt (a b : Z * Z * Z) : Prop :=
  let '(a1, a2, a3) := a in
  let '(b1, b2, b3) := b in
  (a1 < b1 \/ (a1 = b1 /\ (a2 < b2 \/ (a2 = b2 /\ a3 < b3))))%Z.

(** [x] is a number, not NaN, that carries the sign [s]. *)
Definition signed_number (s : bool) (x : spec_float) : Prop :=
  match x with
  | S754_zero s' | S754_infinity s' | S754_finite s' _ _ => s' = s
  | S754_nan => False
  end.

(** A number above one: plus infinity, or finite and beyond the mantissa
    [2^52] at the exponent [-52]. *)
Definition above_one (x : spec_float) : Prop :=
  x = S754_infinity false \/
  exists m e, x = S754_finite false m e /\
              ((-52 < e)%Z \/ (e = (-52)%Z /\ (2 ^ 52 + 1 <= Z.pos m)%Z)).

(** A non-negative float: zero, a positive number or plus infinity. *)
Definition nonneg (x : float) : Prop := signed_number false (Prim2SF x).

(** A positive finite float. *)
Definition positive_finite (x : float) : Prop :=
  exists m e, Prim2SF x = S754_finite false m e.

End FloatRank.

(** ** Sample games *)

Module Sample.

Definition tier (v : float) (tot rem : Z) : PrizeTier :=
  {| value := v; total := tot; remaining := rem |}.

Definition game (number : string) (price : float) (tiers : list PrizeTier)
  : GameData :=
  {| game_number := number; game_name := "Sample"; ticket_price := price;
     url := "https://nclottery.com/scratch-off/900/sample";
     start_date := None; status := EmptyString; prize_tiers := tiers |}.

(** No tiers at all. *)
Definition empty : GameData := game "900" 5 [].

(** A one dollar tier with all ten prizes left and a million dollar tier
    with one prize of five left. *)
Definition two_tier : GameData :=
  game "903" 1 [tier 1 10 10; tier 1000000 5 1].

(** A five dollar ticket: break-even tiers at 80 of 100, small wins at
    40 of 100, medium wins at 10 of 50. *)
Definition five_dollar : GameData :=
  game "904" 5 [tier 10 60 50; tier 50 40 30;
                tier 500 50 10; tier 1000 50 30;
                tier 2000 25 10; tier 10000 25 0].

(** Million health 75, bottom tier at 50, top tier at 45. *)
Definition precedence : GameData :=
  game "902" 5 [tier 1 100 50; tier 1000000 300 255; tier 2000000 100 45].

(** A fifty dollar ticket with a five hundred dollar tier. *)
Definition fifty_dollar_tier : PrizeTier := tier 500 1000 400.

(** Equal values: the first and the third tier tie for the top, the
    second and the fourth for the bottom. *)
Definition tied : list PrizeTier :=
  [tier 20 10 1; tier 5 10 2; tier 20 10 3; tier 5 10 4].

(** A second game without tiers, and a slate of games two of which score
    the same. *)
Definition empty_twin : GameData :=
  {| game_number := "901"; game_name := "Twin"; ticket_price := 10;
     url := "https://nclottery.com/scratch-off/901/twin";
     start_date := None; status := "Reordered"; prize_tiers := [] |}.

Definition slate : list GameData :=
  [empty; two_tier; precedence; empty_twin; five_dollar].

(** An environment in which no date parses. *)
Definition no_date : string -> string -> option Z := fun _ _ => None.
Definition same_day : Z -> Z := fun d => d.

End Sample.

(** ** Text built-ins *)

Module PyStr.

(** [str(n)] of an [int]: its decimal digits, a minus sign in front of a
    negative one. *)
Definition of_int (n : Z) : string := NilEmpty.string_of_int (Z.to_int n).

(** [s.replace(c, '')] for a one-character [c]: every occurrence goes. *)
Fixpoint remove (c : ascii) (s : string) : string :=
  match s with
  | EmptyString => EmptyString
  | String a s' =>
      if Ascii.eqb a c then remove c s' else String a (remove c s')
  end.

End PyStr.

(** ** Reading prize rows: [NCLotteryAnalyzer]

    The page is fetched and taken apart by [requests] and [BeautifulSoup];
    what reaches the code below is text.  [strip] is [str.strip],
    [float_of_str] and [int_of_str] are the built-in [float] and [int] on a
    string, [None] where they raise [ValueError]. *)

Section Parsing.

Variable strip : string -> string.
Variable float_of_str : string -> option float.
Variable int_of_str : string -> option Z.

Definition parse_prize_value (prize_str : string) : float :=
  let cleaned := strip (PyStr.remove "," (PyStr.remove "$" prize_str)) in
  match float_of_str cleaned with
  | Some v => v
  | None => 0%float
  end.

Definition parse_number (num_str : string) : Z :=
  let cleaned := strip (PyStr.remove "," num_str) in
  match int_of_str cleaned with
  | Some n => n
  | None => 0%Z
  end.

(** One turn of the row loop of [parse_game_section]: [cells] are the texts
    of the row's [td] cells, and the result is the tier the turn appends,
    if it appends one. *)
Definition parse_prize_row (cells : list string) : option PrizeTier :=
  if (4 <=? List.length cells)%nat then
    let value_text := nth 0 cells EmptyString in
    if negb (String.prefix "$" value_text) then None
    else
      let prize_value := parse_prize_value value_text in
      if (prize_value <=? 0)%float then None
      else
        let total := parse_number (nth 2 cells EmptyString) in
        let remaining := parse_number (nth 3 cells EmptyString) in
        if (0 <? total)%Z
        then Some {| value := prize_value; total := total; remaining := remaining |}
        else None
  else None.

(** The row loop: the tiers appended, in row order. *)
Fixpoint parse_prize_rows (rows : list (list string)) : list PrizeTier :=
  match rows with
  | [] => []
  | cells :: rows' =>
      match parse_prize_row cells with
      | Some tier => tier :: parse_prize_rows rows'
      | None => parse_prize_rows rows'
      end
  end.

(** [parse_game_section] from the header fields it has extracted and the
    rows below the header. *)
Definition parse_game_section
  (game_number game_name status game_url : string) (rows : list (list string))
  : option GameData :=
  match parse_prize_rows rows with
  | [] => None
  | prize_tiers =>
      Some {| game_number := game_number; game_name := game_name;
              ticket_price := 0%float; url := game_url;
              start_date := None; status := status;
              prize_tiers := prize_tiers |}
  end.

End Parsing.

(** [get_million_plus_games], from the games [scrape_all_games] returned. *)
Definition get_million_plus_games (all_games : list GameData) : list GameData :=
  filter has_million_plus all_games.

(** ** Presentation: [generate_game_card] and [main] *)

(** The age line of a game card. *)
Definition days_str (days : option Z) : string :=
  match days with
  | Some d =>
      if (d =? 0)%Z then "Age unknown"%string
      else (PyStr.of_int d ++ " days old")%string
  | None => "Age unknown"%string
  end.

(** The order in which a game card lists the million-plus tiers. *)
Definition million_breakdown (game : GameData) : list PrizeTier :=
  Py.sort_reverse value (get_million_plus_tiers game).

Section Summary.

Variable datetime : Type.
Variable strptime : string -> string -> option datetime.
Variable days_until_now : datetime -> Z.

(** The games [main] prints under "Top 5 Opportunities".  [main] scores
    the games for this summary itself, before [generate_html_report] scores
    them again for the report, and every scoring reads the clock: the
    [days_until_now] of this summary and that of the report's ranking are
    two clocks. *)
Definition top_opportunities (million_games : list GameData)
  : result (list scored_game) :=
  (scored <- score_all datetime strptime days_until_now million_games ;;
   let scored := Py.sort_reverse score_of scored in
   Ok (firstn 5 scored))%result.

(** The start date is absent, empty, or in none of the accepted formats. *)
Definition date_unreadable (g : GameData) : Prop :=
  match start_date g with
  | None => True
  | Some date_string =>
      date_string = EmptyString \/
      forall fmt, In fmt date_formats -> strptime date_string fmt = None
  end.

End Summary.

(** The same game with its start date left out. *)
Definition without_start_date (g : GameData) : GameData :=
  {| game_number := game_number g; game_name := game_name g;
     ticket_price := ticket_price g; url := url g;
     start_date := None; status := status g;
     prize_tiers := prize_tiers g |}.

(** ** A dated sample game

    Dates are day numbers here.  The calendar reads one ISO date, as day
    [0]; the game of that date is 29 days old on one clock and 30 days old
    on the clock of the day after. *)

Module SampleDates.

Definition calendar (date_string fmt : string) : option Z :=
  if (String.eqb date_string "2026-10-06" && String.eqb fmt "%Y-%m-%d")%bool
  then Some 0%Z else None.

Definition on_day (today : Z) : Z -> Z := fun launch => (today - launch)%Z.

Definition dated : GameData :=
  {| game_number := "909"; game_name := "Dated"; ticket_price := 5;
     url := "https://nclottery.com/scratch-off/909/dated";
     start_date := Some "2026-10-06"%string; status := EmptyString;
     prize_tiers := prize_tiers Sample.precedence |}.

End SampleDates.

(** ** Counts in range

    The remaining counts of a game are in range when none is negative and
    their sum is below [2^1023], so that no quotient of two of the engine's
    sums can overflow a float. *)

Definition in_range (g : GameData) : Prop :=
  Forall (fun t => (0 <= remaining t)%Z) (prize_tiers g) /\
  (Py.sum (map remaining (prize_tiers g)) < 2 ^ 1023)%Z.

(** ** A sample prize table *)

Module SamplePage.

(** [str.strip] on texts whose only white space is the space character. *)
Fixpoint lstrip (s : list ascii) : list ascii :=
  match s with
  | " "%char :: s' => lstrip s'
  | _ => s
  end.

Definition strip (s : string) : string :=
  string_of_list_ascii
    (rev (lstrip (rev (lstrip (list_ascii_of_string s))))).

(** [int] on a text of decimal digits with an optional minus sign; other
    texts count as unreadable here. *)
Definition int_of_str (s : string) : option Z :=
  option_map Z.of_int (NilZero.int_of_string s).

(** [float] on the text of a whole number below [2^53]; other texts count
    as unreadable here. *)
Definition float_of_str (s : string) : option float :=
  match int_of_str s with
  | Some z =>
      if (Z.abs z <? 2 ^ 53)%Z then Some (SF2Prim (Py.Z2SF z)) else None
  | None => None
  end.

(** The rows below a game's header: a column header row, two readable
    tiers, a tier whose remaining count is unreadable, one whose total is
    unreadable, one with a zero prize and a short row. *)
Definition rows : list (list string) :=
  [ ["Value"; "Odds"; "Total"; "Remaining"];
    ["$1,000,000"; "1 in 2,000,000"; "4"; "3"];
    ["$500"; "1 in 1,200"; " 6,000 "; "1,250"];
    ["$20"; "1 in 50"; "150,000"; "n/a"];
    ["$5"; "1 in 10"; "n/a"; "700,000"];
    ["$0"; "1 in 3"; "10"; "10"];
    ["$1"; "1 in 5"] ]%string.

End SamplePage.

(** * Properties *)

(** ** The order of binary64 numbers

    The comparison primitives are specified through [SFcompare]; ranking a
    number by sign class, exponent and mantissa turns that into a
    lexicographic order on integer triples, where [lia] decides. *)

Module FloatOrder.

Import FloatRank.

Lemma lex_spec a b :
  match lex a b with
  | Lt => lex_lt a b
  | Eq => a = b
  | Gt => lex_lt b a
  end.
Proof.
  destruct a as [[a1 a2] a3], b as [[b1 b2] b3]; unfold lex, lex_lt.
  destruct (Z.compare_spec a1 b1); [ | lia | lia ].
  destruct (Z.compare_spec a2 b2); [ | lia | lia ].
  destruct (Z.compare_spec a3 b3); [ congruence | lia | lia ].
Qed.

Lemma SFcompare_lex x y :
  x <> S754_nan -> y <> S754_nan ->
  SFcompare x y = Some (lex (rank x) (rank y)).
Proof.
  intros Hx Hy.
  destruct x as [sx | sx | | sx mx ex], y as [sy | sy | | sy my ey];
    try congruence;
    try (destruct sx); try (destruct sy); try reflexivity.
  cbn [SFcompare rank lex]. change (-1 ?= -1)%Z with Eq. cbv iota.
  rewrite Z.compare_opp, (Z.compare_antisym ex ey).
  destruct (ex ?= ey)%Z; reflexivity.
Qed.

Lemma is_nan_spec x : is_nan x = true <-> Prim2SF x = S754_nan.
Proof.
  unfold is_nan. rewrite FloatAxioms.eqb_spec. unfold SFeqb.
  destruct (Prim2SF x) as [s | s | | s m e] eqn:E.
  - cbn. split; discriminate.
  - destruct s; cbn; split; discriminate.
  - cbn. tauto.
  - rewrite SFcompare_lex by discriminate.
    pose proof (lex_spec (rank (S754_finite s m e)) (rank (S754_finite s m e))) as H.
    destruct (lex _ _); cbn; try (split; discriminate).
    + exfalso. destruct s; cbn in H; lia.
    + exfalso. destruct s; cbn in H; lia.
Qed.

Lemma not_nan_spec x : is_nan x = false <-> Prim2SF x <> S754_nan.
Proof.
  rewrite <- is_nan_spec. destruct (is_nan x); split; congruence.
Qed.

(** A comparison is [true] only between numbers. *)
Lemma ltb_number x y : (x <? y)%float = true -> is_nan x = false /\ is_nan y = false.
Proof.
  rewrite FloatAxioms.ltb_spec, !not_nan_spec. unfold SFltb.
  destruct (Prim2SF x), (Prim2SF y); cbn; try discriminate; split; discriminate.
Qed.

Lemma leb_number x y : (x <=? y)%float = true -> is_nan x = false /\ is_nan y = false.
Proof.
  rewrite FloatAxioms.leb_spec, !not_nan_spec. unfold SFleb.
  destruct (Prim2SF x), (Prim2SF y); cbn; try discriminate; split; discriminate.
Qed.

Lemma ltb_lex x y :
  is_nan x = false -> is_nan y = false ->
  (x <? y)%float = match lex (rank (Prim2SF x)) (rank (Prim2SF y)) with Lt => true | _ => false end.
Proof.
  rewrite !not_nan_spec. intros Hx Hy.
  rewrite FloatAxioms.ltb_spec. unfold SFltb. rewrite SFcompare_lex by assumption. reflexivity.
Qed.

Lemma leb_lex x y :
  is_nan x = false -> is_nan y = false ->
  (x <=? y)%float = match lex (rank (Prim2SF x)) (rank (Prim2SF y)) with Gt => false | _ => true end.
Proof.
  rewrite !not_nan_spec. intros Hx Hy.
  rewrite FloatAxioms.leb_spec. unfold SFleb. rewrite SFcompare_lex by assumption.
  destruct (lex _ _); reflexivity.
Qed.

Lemma eqb_lex x y :
  is_nan x = false -> is_nan y = false ->
  (x =? y)%float = match lex (rank (Prim2SF x)) (rank (Prim2SF y)) with Eq => true | _ => false end.
Proof.
  rewrite !not_nan_spec. intros Hx Hy.
  rewrite FloatAxioms.eqb_spec. unfold SFeqb. rewrite SFcompare_lex by assumption.
  destruct (lex _ _); reflexivity.
Qed.

Ltac order x y :=
  let H := fresh "H" in
  pose proof (lex_spec (rank (Prim2SF x)) (rank (Prim2SF y))) as H;
  destruct (lex (rank (Prim2SF x)) (rank (Prim2SF y)));
  try discriminate.

Ltac lex_lia :=
  repeat match goal with
         | H : context [rank (Prim2SF ?x)] |- _ =>
             let a := fresh "a" in let b := fresh "b" in let c := fresh "c" in
             destruct (rank (Prim2SF x)) as [[a b] c]
         end;
  unfold lex_lt in *;
  repeat match goal with
         | H : (_, _, _) = (_, _, _) |- _ => injection H as ? ? ?
         end;
  try reflexivity; try lia.

Lemma ltb_leb x y : (x <? y)%float = true -> (x <=? y)%float = true.
Proof.
  intros H. destruct (ltb_number _ _ H) as [Hx Hy].
  rewrite ltb_lex in H by assumption. rewrite leb_lex by assumption.
  order x y. reflexivity.
Qed.

Lemma leb_refl x : is_nan x = false -> (x <=? x)%float = true.
Proof.
  intros Hx. rewrite leb_lex by assumption. order x x; lex_lia.
Qed.

Lemma ltb_irrefl x : (x <? x)%float = false.
Proof.
  destruct (x <? x)%float eqn:H; [ | reflexivity ].
  destruct (ltb_number _ _ H) as [Hx _].
  rewrite ltb_lex in H by assumption. order x x; lex_lia.
Qed.

Lemma leb_trans x y z :
  (x <=? y)%float = true -> (y <=? z)%float = true -> (x <=? z)%float = true.
Proof.
  intros H1 H2.
  destruct (leb_number _ _ H1) as [Hx Hy], (leb_number _ _ H2) as [_ Hz].
  rewrite leb_lex in * by assumption.
  order x y; order y z; order x z; lex_lia.
Qed.

Lemma ltb_leb_trans x y z :
  (x <? y)%float = true -> (y <=? z)%float = true -> (x <? z)%float = true.
Proof.
  intros H1 H2.
  destruct (ltb_number _ _ H1) as [Hx Hy], (leb_number _ _ H2) as [_ Hz].
  rewrite ltb_lex in * by assumption. rewrite leb_lex in * by assumption.
  order x y; order y z; order x z; lex_lia.
Qed.

Lemma leb_ltb_trans x y z :
  (x <=? y)%float = true -> (y <? z)%float = true -> (x <? z)%float = true.
Proof.
  intros H1 H2.
  destruct (leb_number _ _ H1) as [Hx Hy], (ltb_number _ _ H2) as [_ Hz].
  rewrite ltb_lex in * by assumption. rewrite leb_lex in * by assumption.
  order x y; order y z; order x z; lex_lia.
Qed.

Lemma ltb_trans x y z :
  (x <? y)%float = true -> (y <? z)%float = true -> (x <? z)%float = true.
Proof.
  intros H1 H2. eapply ltb_leb_trans; [ eassumption | now apply ltb_leb ].
Qed.

(** On numbers the order is total. *)
Lemma not_ltb_leb x y :
  is_nan x = false -> is_nan y = false ->
  (x <? y)%float = false -> (y <=? x)%float = true.
Proof.
  intros Hx Hy H.
  rewrite ltb_lex in H by assumption. rewrite leb_lex by assumption.
  order x y; order y x; lex_lia.
Qed.

Lemma ltb_not_leb x y : (x <? y)%float = true -> (y <=? x)%float = false.
Proof.
  intros H. destruct (ltb_number _ _ H) as [Hx Hy].
  rewrite ltb_lex in H by assumption. rewrite leb_lex by assumption.
  order x y; order y x; lex_lia.
Qed.

Lemma leb_not_ltb x y : (x <=? y)%float = true -> (y <? x)%float = false.
Proof.
  intros H. destruct (y <? x)%float eqn:E; [ | reflexivity ].
  apply ltb_not_leb in E. congruence.
Qed.

Lemma eqb_leb x y :
  (x =? y)%float = ((x <=? y)%float && (y <=? x)%float).
Proof.
  destruct (is_nan x) eqn:Hx.
  { apply is_nan_spec in Hx. rewrite FloatAxioms.eqb_spec, !FloatAxioms.leb_spec. unfold SFeqb, SFleb.
    rewrite Hx. cbn. reflexivity. }
  destruct (is_nan y) eqn:Hy.
  { apply is_nan_spec in Hy. rewrite FloatAxioms.eqb_spec, !FloatAxioms.leb_spec. unfold SFeqb, SFleb.
    rewrite Hy. destruct (Prim2SF x); reflexivity. }
  rewrite eqb_lex, !leb_lex by assumption.
  order x y; order y x; lex_lia.
Qed.

End FloatOrder.

(** ** Rounding to binary64

    [binary_round_aux] is the one rounding step behind every arithmetic
    operation of [SpecFloat].  Three facts about it are needed: the result
    carries the sign asked for, it is a valid binary64 number, and it is
    finite while the magnitude leaves a binade of room. *)

Module BinaryRound.

Import FloatRank.

Local Open Scope Z_scope.

Lemma digits2_pos_size (p : positive) : digits2_pos p = Pos.size p.
Proof.
  induction p as [ p IH | p IH | ]; cbn; congruence.
Qed.

Lemma Zdigits2_nonneg (m : Z) : 0 <= Zdigits2 m.
Proof.
  destruct m; cbn; lia.
Qed.

(** A non-negative integer has at most [k] binary digits exactly when it is
    below [2^k]. *)
Lemma Zdigits2_le (m k : Z) :
  0 <= m -> 0 <= k -> (Zdigits2 m <= k <-> m < 2 ^ k).
Proof.
  intros Hm Hk. destruct m as [ | p | p ]; [ | | lia ].
  - cbn. split; intros _; [ apply Z.pow_pos_nonneg; lia | assumption ].
  - cbn [Zdigits2]. rewrite digits2_pos_size.
    pose proof (Pos.size_gt p) as Hgt.
    pose proof (Pos.size_le p) as Hle.
    apply Pos2Z.pos_lt_pos in Hgt. apply Pos2Z.pos_le_pos in Hle.
    rewrite Pos2Z.inj_pow in Hgt, Hle.
    change (Z.pos p~0) with (2 * Z.pos p) in Hle.
    change (Z.pos 2) with 2 in *.
    split; intros H.
    + eapply Z.lt_le_trans; [ exact Hgt | ].
      apply Z.pow_le_mono_r; lia.
    + destruct (Z_le_gt_dec (Z.pos (Pos.size p)) k) as [ | Hgtk ]; [ assumption | ].
      exfalso.
      assert (Hpow : 2 ^ (k + 1) <= 2 ^ Z.pos (Pos.size p))
        by (apply Z.pow_le_mono_r; lia).
      rewrite Z.pow_add_r in Hpow by lia. lia.
Qed.

Lemma shr_m_of_loc (m : Z) (l : location) : shr_m (shr_record_of_loc m l) = m.
Proof.
  destruct l as [ | [ | | ] ]; reflexivity.
Qed.

Lemma shr_1_digits (mrs : shr_record) :
  0 <= shr_m mrs ->
  0 <= shr_m (shr_1 mrs) /\
  Zdigits2 (shr_m (shr_1 mrs)) = Z.max 0 (Zdigits2 (shr_m mrs) - 1).
Proof.
  destruct mrs as [m r s]. cbn [shr_m].
  destruct m as [ | [ p | p | ] | p ];
    cbn [shr_1 shr_m Zdigits2 digits2_pos]; intros H;
    rewrite ?Pos2Z.inj_succ; lia.
Qed.

Lemma iter_shr_1_digits (p : positive) (mrs : shr_record) :
  0 <= shr_m mrs ->
  0 <= shr_m (iter_pos shr_1 p mrs) /\
  Zdigits2 (shr_m (iter_pos shr_1 p mrs))
  = Z.max 0 (Zdigits2 (shr_m mrs) - Z.pos p).
Proof.
  revert mrs. induction p as [ p IH | p IH | ]; intros mrs H; cbn [iter_pos].
  - destruct (shr_1_digits mrs H) as [H1 E1].
    destruct (IH _ H1) as [H2 E2].
    destruct (IH _ H2) as [H3 E3].
    split; [ exact H3 | ]. rewrite E3, E2, E1. lia.
  - destruct (IH _ H) as [H2 E2].
    destruct (IH _ H2) as [H3 E3].
    split; [ exact H3 | ]. rewrite E3, E2. lia.
  - destruct (shr_1_digits mrs H) as [H1 E1].
    split; [ exact H1 | ]. rewrite E1. lia.
Qed.

Lemma round_nearest_even_digits (m : Z) (l : location) :
  0 <= m ->
  0 <= round_nearest_even m l /\
  Zdigits2 (round_nearest_even m l) <= Zdigits2 m + 1.
Proof.
  intros Hm.
  assert (Hstep : 0 <= m + 1 /\ Zdigits2 (m + 1) <= Zdigits2 m + 1).
  { split; [ lia | ].
    pose proof (Zdigits2_nonneg m) as Hd.
    apply Zdigits2_le; [ lia | lia | ].
    assert (Hlt : m < 2 ^ Zdigits2 m) by (apply Zdigits2_le; lia).
    rewrite Z.pow_add_r by lia. lia. }
  assert (Hsame : 0 <= m /\ Zdigits2 m <= Zdigits2 m + 1) by lia.
  destruct l as [ | [ | | ] ]; cbn [round_nearest_even];
    try exact Hsame; try exact Hstep.
  destruct (Z.even m); [ exact Hsame | exact Hstep ].
Qed.

(** One shift to the exponent [fexp] asks for: the mantissa stays
    non-negative and the magnitude [digits + exponent] can only grow to the
    minimal exponent. *)
Lemma shr_fexp_digits (m e : Z) (l : location) :
  0 <= m ->
  let '(mrs, e') := shr_fexp prec emax m e l in
  0 <= shr_m mrs /\
  (e' = e \/ e' = fexp prec emax (Zdigits2 m + e)) /\
  Zdigits2 (shr_m mrs) + e'
  <= Z.max (Zdigits2 m + e) (fexp prec emax (Zdigits2 m + e)).
Proof.
  intros Hm. unfold shr_fexp, shr.
  destruct (fexp prec emax (Zdigits2 m + e) - e) as [ | p | p ] eqn:En.
  - rewrite shr_m_of_loc. repeat split; [ assumption | left; reflexivity | lia ].
  - destruct (iter_shr_1_digits p (shr_record_of_loc m l)) as [H E].
    { rewrite shr_m_of_loc; assumption. }
    rewrite shr_m_of_loc in E.
    repeat split; [ assumption | right; lia | rewrite E; lia ].
  - rewrite shr_m_of_loc. repeat split; [ assumption | left; reflexivity | lia ].
Qed.

(** Rounding a non-negative mantissa gives a number of the sign asked for. *)
Lemma binary_round_aux_signed (s : bool) (m e : Z) (l : location) :
  0 <= m -> signed_number s (binary_round_aux prec emax s m e l).
Proof.
  intros Hm. unfold binary_round_aux.
  pose proof (shr_fexp_digits m e l Hm) as H1.
  destruct (shr_fexp prec emax m e l) as [mrs' e'].
  destruct H1 as (H1 & _ & _).
  pose proof (round_nearest_even_digits (shr_m mrs') (loc_of_shr_record mrs') H1)
    as [H2 _].
  pose proof (shr_fexp_digits _ e' loc_Exact H2) as H3.
  destruct (shr_fexp prec emax _ e' loc_Exact) as [mrs'' e''].
  destruct H3 as (H3 & _ & _).
  destruct (shr_m mrs'') as [ | p | p ]; [ exact eq_refl | | lia ].
  destruct (e'' <=? emax - prec); exact eq_refl.
Qed.

(** Rounding stays finite when the magnitude leaves one binade of room. *)
Lemma binary_round_aux_finite (s : bool) (m e : Z) (l : location) :
  0 <= m -> e <= emax - prec -> Zdigits2 m + e <= emax - 1 ->
  forall s', binary_round_aux prec emax s m e l <> S754_infinity s'.
Proof.
  intros Hm He Hd s'. unfold binary_round_aux.
  pose proof (shr_fexp_digits m e l Hm) as H1.
  destruct (shr_fexp prec emax m e l) as [mrs' e'].
  destruct H1 as (H1 & He' & Hd').
  pose proof (round_nearest_even_digits (shr_m mrs') (loc_of_shr_record mrs') H1)
    as [H2 Hd2].
  pose proof (shr_fexp_digits _ e' loc_Exact H2) as H3.
  destruct (shr_fexp prec emax _ e' loc_Exact) as [mrs'' e''].
  destruct H3 as (H3 & He'' & _).
  destruct (shr_m mrs'') as [ | p | p ]; [ discriminate | | discriminate ].
  destruct (Z.leb_spec e'' (emax - prec)) as [ | Hgt ]; [ discriminate | ].
  exfalso. unfold fexp, emin, prec, emax in *. lia.
Qed.



Lemma fexp_monotone (x y : Z) : x <= y -> fexp prec emax x <= fexp prec emax y.
Proof.
  unfold fexp. lia.
Qed.

(** A non-negative integer has at least [k] binary digits exactly when it
    reaches [2^(k-1)]. *)
Lemma Zdigits2_ge (m k : Z) :
  0 <= m -> 0 < k -> (k <= Zdigits2 m <-> 2 ^ (k - 1) <= m).
Proof.
  intros Hm Hk.
  pose proof (Zdigits2_le m (k - 1) Hm ltac:(lia)) as H. lia.
Qed.

Lemma Zdigits2_monotone (m n : Z) : 0 <= m -> m <= n -> Zdigits2 m <= Zdigits2 n.
Proof.
  intros Hm Hn.
  pose proof (Zdigits2_nonneg n) as Hd.
  apply Zdigits2_le; [ lia | lia | ].
  assert (n < 2 ^ Zdigits2 n) by (apply Zdigits2_le; lia). lia.
Qed.

Lemma round_nearest_even_grows (m : Z) (l : location) :
  m <= round_nearest_even m l.
Proof.
  destruct l as [ | [ | | ] ]; cbn [round_nearest_even]; try lia.
  destruct (Z.even m); lia.
Qed.

(** The shift lands on the exponent [fexp] asks for whenever the exponent
    was not above it to begin with; a mantissa that is not zero keeps its
    magnitude, and one shifted out entirely sits at the minimal exponent. *)
Lemma shr_fexp_exponent (m e : Z) (l : location) :
  0 <= m -> e <= fexp prec emax (Zdigits2 m + e) ->
  let '(mrs, e') := shr_fexp prec emax m e l in
  e' = fexp prec emax (Zdigits2 m + e) /\
  (0 < shr_m mrs -> Zdigits2 (shr_m mrs) + e' = Zdigits2 m + e) /\
  (shr_m mrs = 0 -> forall x, e' <= fexp prec emax x).
Proof.
  intros Hm He. unfold shr_fexp, shr.
  destruct (fexp prec emax (Zdigits2 m + e) - e) as [ | p | p ] eqn:En.
  - rewrite shr_m_of_loc.
    split; [ lia | ]. split; [ intros; lia | ].
    intros -> x. cbn [Zdigits2] in *. unfold fexp, emin, prec, emax in *. lia.
  - destruct (iter_shr_1_digits p (shr_record_of_loc m l)) as [H E].
    { rewrite shr_m_of_loc; assumption. }
    rewrite shr_m_of_loc in E.
    split; [ lia | ]. split.
    + intros Hpos.
      assert (Hd : 0 < Zdigits2 (shr_m (iter_pos shr_1 p (shr_record_of_loc m l)))).
      { destruct (shr_m (iter_pos shr_1 p (shr_record_of_loc m l))); cbn; lia. }
      lia.
    + intros Hz x. rewrite Hz in E. cbn [Zdigits2] in E.
      unfold fexp, emin, prec, emax in *. lia.
  - lia.
Qed.

(** Rounding a non-negative mantissa whose exponent is not above the one
    [fexp] asks for gives a valid binary64 number. *)
Lemma binary_round_aux_valid (s : bool) (m e : Z) (l : location) :
  0 <= m -> e <= fexp prec emax (Zdigits2 m + e) ->
  valid_binary (binary_round_aux prec emax s m e l) = true.
Proof.
  intros Hm He. unfold binary_round_aux.
  pose proof (shr_fexp_digits m e l Hm) as H1.
  pose proof (shr_fexp_exponent m e l Hm He) as X1.
  destruct (shr_fexp prec emax m e l) as [mrs' e'].
  destruct H1 as (H1 & _ & _). destruct X1 as (Xe & Xpos & Xzero).
  pose proof (round_nearest_even_digits (shr_m mrs') (loc_of_shr_record mrs') H1)
    as [H2 _].
  pose proof (round_nearest_even_grows (shr_m mrs') (loc_of_shr_record mrs')) as Hg.
  set (m1 := round_nearest_even (shr_m mrs') (loc_of_shr_record mrs')) in *.
  assert (He1 : e' <= fexp prec emax (Zdigits2 m1 + e')).
  { destruct (Z.eq_dec (shr_m mrs') 0) as [Hz | Hnz].
    - apply Xzero, Hz.
    - rewrite Xe at 1. rewrite <- (Xpos ltac:(lia)).
      apply fexp_monotone.
      pose proof (Zdigits2_monotone (shr_m mrs') m1 H1 Hg). lia. }
  pose proof (shr_fexp_exponent m1 e' loc_Exact H2 He1) as X2.
  destruct (shr_fexp prec emax m1 e' loc_Exact) as [mrs'' e''].
  destruct X2 as (Xe2 & Xpos2 & _).
  destruct (shr_m mrs'') as [ | p | p ] eqn:Em; [ reflexivity | | reflexivity ].
  destruct (Z.leb_spec e'' (emax - prec)) as [ Hle | Hgt ]; [ | reflexivity ].
  cbn [SpecFloat.valid_binary]. unfold bounded, canonical_mantissa.
  change (Z.pos (digits2_pos p)) with (Zdigits2 (Z.pos p)).
  rewrite (Xpos2 ltac:(lia)), <- Xe2, Z.eqb_refl.
  apply Z.leb_le in Hle. rewrite Hle. reflexivity.
Qed.

(** ** Division of two integers *)

Lemma SFdiv_core_int (ma mb : positive) :
  let '(q, e, l) := SFdiv_core_binary prec emax (Z.pos ma) 0 (Z.pos mb) 0 in
  0 <= q /\ e <= 0 /\
  Zdigits2 q + e <= Zdigits2 (Z.pos ma) /\
  e <= fexp prec emax (Zdigits2 q + e).
Proof.
  unfold SFdiv_core_binary.
  set (d1 := Zdigits2 (Z.pos ma)). set (d2 := Zdigits2 (Z.pos mb)).
  rewrite !Z.add_0_r. change (0 - 0) with 0.
  set (e := Z.min (fexp prec emax (d1 - d2)) 0).
  assert (He : e <= 0) by (unfold e; lia).
  assert (Hd1 : 0 < d1) by (unfold d1; cbn; lia).
  assert (Hd2 : 0 < d2) by (unfold d2; cbn; lia).
  assert (Ha : 2 ^ (d1 - 1) <= Z.pos ma < 2 ^ d1).
  { split; [ apply Zdigits2_ge; unfold d1; lia | apply Zdigits2_le; unfold d1; lia ]. }
  assert (Hb : 2 ^ (d2 - 1) <= Z.pos mb < 2 ^ d2).
  { split; [ apply Zdigits2_ge; unfold d2; lia | apply Zdigits2_le; unfold d2; lia ]. }
  set (m' := match 0 - e with
             | Z.pos _ => Z.shiftl (Z.pos ma) (0 - e)
             | 0 => Z.pos ma
             | Z.neg _ => 0
             end).
  assert (Hm' : m' = Z.pos ma * 2 ^ (- e)).
  { unfold m'. destruct (0 - e) as [ | p | p ] eqn:Es; [ | | lia ].
    - replace (- e) with 0 by lia. lia.
    - rewrite Z.shiftl_mul_pow2 by lia. replace (- e) with (Z.pos p) by lia.
      reflexivity. }
  clearbody m'.
  pose proof (Z_div_mod m' (Z.pos mb) ltac:(lia)) as Hdiv.
  destruct (Z.div_eucl m' (Z.pos mb)) as [q r].
  destruct Hdiv as [Hq Hr].
  assert (Hpow : 0 < 2 ^ (- e)) by (apply Z.pow_pos_nonneg; lia).
  assert (Hq0 : 0 <= q) by nia.
  assert (Hqm : q <= m') by nia.
  split; [ exact Hq0 | ]. split; [ exact He | ].
  assert (Hup : Zdigits2 q <= d1 - e).
  { apply Zdigits2_le; [ lia | lia | ].
    replace (d1 - e) with (d1 + - e) by lia.
    rewrite Z.pow_add_r by lia. nia. }
  split; [ lia | ].
  (* the quotient has the digits the exponent was chosen for *)
  assert (Hlow : d1 - d2 - e <= Zdigits2 q).
  { pose proof (Zdigits2_nonneg q).
    destruct (Z_le_gt_dec (d1 - d2 - e) 0) as [ | Hpos ]; [ lia | ].
    apply Zdigits2_ge; [ lia | lia | ].
    (* 2^(d1-d2-e-1) * mb < 2^(d1-1-e) <= m', so the quotient reaches it *)
    assert (Hsplit : 2 ^ (d1 - 1) * 2 ^ (- e)
                     = 2 ^ (d1 - d2 - e - 1) * 2 ^ d2).
    { rewrite <- !Z.pow_add_r by lia. f_equal. lia. }
    assert (Hk : 0 < 2 ^ (d1 - d2 - e - 1)) by (apply Z.pow_pos_nonneg; lia).
    assert (Hlt : 2 ^ (d1 - d2 - e - 1) * Z.pos mb < Z.pos mb * (q + 1)) by nia.
    nia. }
  unfold e at 1.
  eapply Z.le_trans; [ apply Z.le_min_l | ].
  apply fexp_monotone. lia.
Qed.

Lemma SFdiv_int_valid (a b : Z) :
  valid_binary (SFdiv prec emax (Py.Z2SF a) (Py.Z2SF b)) = true.
Proof.
  destruct a as [ | ma | ma ], b as [ | mb | mb ]; try reflexivity;
    cbn [Py.Z2SF SFdiv];
    pose proof (SFdiv_core_int ma mb) as H;
    destruct (SFdiv_core_binary prec emax (Z.pos ma) 0 (Z.pos mb) 0) as [[q e] l];
    destruct H as (Hq & _ & _ & He);
    apply binary_round_aux_valid; assumption.
Qed.

Lemma SFdiv_int_finite (a b : Z) :
  b <> 0 -> Z.abs a < 2 ^ (emax - 1) ->
  forall s, SFdiv prec emax (Py.Z2SF a) (Py.Z2SF b) <> S754_infinity s.
Proof.
  intros Hb Ha s.
  destruct a as [ | ma | ma ], b as [ | mb | mb ]; try discriminate;
    try contradiction;
    cbn [Py.Z2SF SFdiv];
    pose proof (SFdiv_core_int ma mb) as H;
    destruct (SFdiv_core_binary prec emax (Z.pos ma) 0 (Z.pos mb) 0) as [[q e] l];
    destruct H as (Hq & He & Hd & _);
    (apply binary_round_aux_finite;
     [ assumption
     | unfold emax, prec; lia
     | assert (Zdigits2 (Z.pos ma) <= emax - 1)
         by (apply Zdigits2_le; [ lia | unfold emax; lia | exact Ha ]);
       lia ]).
Qed.

Lemma SFdiv_int_signed (a b : Z) :
  0 <= a -> 0 < b ->
  signed_number false (SFdiv prec emax (Py.Z2SF a) (Py.Z2SF b)).
Proof.
  intros Ha Hb.
  destruct a as [ | ma | ma ], b as [ | mb | mb ]; try lia; try exact eq_refl.
  cbn [Py.Z2SF SFdiv].
  pose proof (SFdiv_core_int ma mb) as H.
  destruct (SFdiv_core_binary prec emax (Z.pos ma) 0 (Z.pos mb) 0) as [[q e] l].
  destruct H as (Hq & _).
  apply (binary_round_aux_signed false); assumption.
Qed.

(** ** Rounding from below

    The mantissa a shift leaves is the quotient by the power of two, which
    bounds the rounded result from below: enough to see that a quotient
    above one rounds above one, and that times one hundred it is above one
    hundred. *)

Lemma shr_1_value (mrs : shr_record) :
  0 <= shr_m mrs -> shr_m (shr_1 mrs) = shr_m mrs / 2.
Proof.
  destruct mrs as [m r s]. cbn [shr_m].
  destruct m as [ | [ p | p | ] | p ]; cbn [shr_1 shr_m]; intros H;
    try reflexivity; try lia.
  - rewrite Pos2Z.inj_xI. apply Z.div_unique with (r := 1); lia.
  - rewrite Pos2Z.inj_xO. apply Z.div_unique with (r := 0); lia.
Qed.

Lemma iter_shr_1_value (p : positive) (mrs : shr_record) :
  0 <= shr_m mrs ->
  shr_m (iter_pos shr_1 p mrs) = shr_m mrs / 2 ^ Z.pos p.
Proof.
  revert mrs. induction p as [ p IH | p IH | ]; intros mrs H; cbn [iter_pos].
  - pose proof (shr_1_digits mrs H) as [H1 _].
    pose proof (iter_shr_1_digits p _ H1) as [H2 _].
    assert (Hp : 0 < 2 ^ Z.pos p) by (apply Z.pow_pos_nonneg; lia).
    assert (E : 2 ^ Z.pos p~1 = 2 * (2 ^ Z.pos p * 2 ^ Z.pos p)).
    { transitivity (2 ^ (1 + (Z.pos p + Z.pos p))); [ f_equal; lia | ].
      rewrite !Z.pow_add_r by lia. reflexivity. }
    rewrite (IH _ H2), (IH _ H1), shr_1_value, E by assumption.
    rewrite !Z.div_div by lia. reflexivity.
  - pose proof (iter_shr_1_digits p _ H) as [H2 _].
    assert (Hp : 0 < 2 ^ Z.pos p) by (apply Z.pow_pos_nonneg; lia).
    assert (E : 2 ^ Z.pos p~0 = 2 ^ Z.pos p * 2 ^ Z.pos p).
    { transitivity (2 ^ (Z.pos p + Z.pos p)); [ f_equal; lia | ].
      apply Z.pow_add_r; lia. }
    rewrite (IH _ H2), (IH _ H), E.
    rewrite !Z.div_div by lia. reflexivity.
  - rewrite shr_1_value by assumption. reflexivity.
Qed.

Lemma shr_fexp_value (m e : Z) (l : location) :
  0 <= m ->
  shr_m (fst (shr_fexp prec emax m e l))
  = m / 2 ^ Z.max 0 (fexp prec emax (Zdigits2 m + e) - e).
Proof.
  intros Hm. unfold shr_fexp, shr.
  destruct (fexp prec emax (Zdigits2 m + e) - e) as [ | p | p ];
    cbn [fst]; rewrite ?iter_shr_1_value, shr_m_of_loc
      by (rewrite shr_m_of_loc; assumption).
  - cbn. rewrite Z.div_1_r. reflexivity.
  - rewrite Z.max_r by lia. reflexivity.
  - cbn. rewrite Z.div_1_r. reflexivity.
Qed.

Lemma fexp_lipschitz (x y : Z) :
  x <= y -> fexp prec emax y - fexp prec emax x <= y - x.
Proof.
  unfold fexp. lia.
Qed.

Lemma shifted_positive (m n : Z) :
  0 < m -> 0 <= n -> n < Zdigits2 m -> 0 < m / 2 ^ n.
Proof.
  intros Hm Hn Hd.
  assert (Hlow : 2 ^ (Zdigits2 m - 1) <= m) by (apply Zdigits2_ge; lia).
  assert (Hpow : 2 ^ n <= 2 ^ (Zdigits2 m - 1)) by (apply Z.pow_le_mono_r; lia).
  assert (Hp : 0 < 2 ^ n) by (apply Z.pow_pos_nonneg; lia).
  apply Z.div_str_pos. lia.
Qed.

(** Rounding a mantissa that the shift does not wipe out: the result is
    infinite or finite, its exponent is at least the one [fexp] asks for,
    and when it is exactly that one the mantissa is at least the shifted
    one. *)
Lemma binary_round_aux_lower (s : bool) (m e : Z) (l : location) :
  0 < m ->
  e <= fexp prec emax (Zdigits2 m + e) ->
  fexp prec emax (Zdigits2 m + e) - e < Zdigits2 m ->
  binary_round_aux prec emax s m e l = S754_infinity s \/
  exists mf ef,
    binary_round_aux prec emax s m e l = S754_finite s mf ef /\
    fexp prec emax (Zdigits2 m + e) <= ef /\
    (ef = fexp prec emax (Zdigits2 m + e) ->
     m / 2 ^ (fexp prec emax (Zdigits2 m + e) - e) <= Z.pos mf).
Proof.
  intros Hm He Hsurvive. unfold binary_round_aux.
  set (E0 := fexp prec emax (Zdigits2 m + e)) in *.
  pose proof (shr_fexp_digits m e l ltac:(lia)) as H1.
  pose proof (shr_fexp_exponent m e l ltac:(lia) He) as X1.
  pose proof (shr_fexp_value m e l ltac:(lia)) as V1.
  fold E0 in V1.
  destruct (shr_fexp prec emax m e l) as [mrs' e1]. cbn [fst] in V1.
  destruct H1 as (H1 & _ & _). destruct X1 as (Xe & Xpos & _). fold E0 in Xe.
  rewrite Z.max_r in V1 by lia.
  assert (Hsm : 0 < shr_m mrs') by (rewrite V1; apply shifted_positive; lia).
  specialize (Xpos Hsm).
  pose proof (round_nearest_even_digits (shr_m mrs') (loc_of_shr_record mrs') H1)
    as [H2 Hd2].
  pose proof (round_nearest_even_grows (shr_m mrs') (loc_of_shr_record mrs')) as Hg.
  set (m1 := round_nearest_even (shr_m mrs') (loc_of_shr_record mrs')) in *.
  pose proof (Zdigits2_monotone (shr_m mrs') m1 H1 Hg) as Hmono.
  assert (Hdsm : 0 < Zdigits2 (shr_m mrs')).
  { destruct (shr_m mrs'); cbn; lia. }
  assert (HE0 : E0 = fexp prec emax (Zdigits2 (shr_m mrs') + e1))
    by (unfold E0; f_equal; lia).
  assert (He1 : e1 <= fexp prec emax (Zdigits2 m1 + e1)).
  { rewrite Xe at 1. rewrite HE0. apply fexp_monotone. lia. }
  pose proof (fexp_lipschitz (Zdigits2 (shr_m mrs') + e1) (Zdigits2 m1 + e1)
                ltac:(lia)) as Hlip.
  pose proof (shr_fexp_exponent m1 e1 loc_Exact H2 He1) as X2.
  pose proof (shr_fexp_value m1 e1 loc_Exact H2) as V2.
  destruct (shr_fexp prec emax m1 e1 loc_Exact) as [mrs'' e2]. cbn [fst] in V2.
  destruct X2 as (Xe2 & _ & _).
  rewrite <- Xe2 in V2. rewrite Z.max_r in V2 by lia.
  assert (Hm2 : 0 < shr_m mrs'').
  { rewrite V2. apply shifted_positive; lia. }
  destruct (shr_m mrs'') as [ | mf | mf ] eqn:Emf; [ lia | | lia ].
  destruct (Z.leb_spec e2 (emax - prec)) as [ Hle | Hgt ]; [ right | left; reflexivity ].
  exists mf, e2. split; [ reflexivity | ]. split; [ lia | ].
  intros Heq. rewrite V2.
  replace (e2 - e1) with 0 by lia.
  change (2 ^ 0) with 1. rewrite Z.div_1_r, <- V1. exact Hg.
Qed.

(** A valid number above one, times one hundred, is above one hundred. *)
Lemma times_100_above (x : spec_float) :
  valid_binary x = true -> above_one x ->
  SFltb (S754_finite false 7036874417766400 (-46))
        (SFmul prec emax x (S754_finite false 7036874417766400 (-46))) = true.
Proof.
  intros Hv [ -> | (m & e & -> & Habove) ]; [ reflexivity | ].
  cbn [SFmul xorb].
  (* a valid mantissa at these exponents has exactly 53 digits *)
  cbn [SpecFloat.valid_binary] in Hv. unfold bounded, canonical_mantissa in Hv.
  apply andb_true_iff in Hv as [Hcanon _]. apply Z.eqb_eq in Hcanon.
  change (Z.pos (digits2_pos m)) with (Zdigits2 (Z.pos m)) in Hcanon.
  assert (Hd : Zdigits2 (Z.pos m) = 53)
    by (unfold fexp, emin, prec, emax in Hcanon; lia).
  assert (Hm : 2 ^ 52 <= Z.pos m < 2 ^ 53).
  { split; [ apply (Zdigits2_ge (Z.pos m) 53); lia
           | apply (Zdigits2_le (Z.pos m) 53); lia ]. }
  rewrite Pos2Z.inj_mul.
  set (M := Z.pos m * Z.pos 7036874417766400).
  change (2 ^ 52) with 4503599627370496 in *.
  change (2 ^ 53) with 9007199254740992 in *.
  assert (HM : 0 < M) by (unfold M; lia).
  assert (HD : 105 <= Zdigits2 M <= 106).
  { split.
    - apply Zdigits2_ge; [ lia | lia | ].
      change (2 ^ (105 - 1)) with 20282409603651670423947251286016. unfold M. lia.
    - apply Zdigits2_le; [ lia | lia | ].
      change (2 ^ 106) with 81129638414606681695789005144064. unfold M. lia. }
  assert (HE0 : fexp prec emax (Zdigits2 M + (e + -46)) = Zdigits2 M + e - 99)
    by (unfold fexp, emin, prec, emax; lia).
  destruct (binary_round_aux_lower false M (e + -46) loc_Exact HM)
    as [ -> | (mf & ef & -> & Hef & Hmf) ];
    [ rewrite HE0; lia | rewrite HE0; lia | reflexivity | ].
  rewrite HE0 in Hef, Hmf.
  unfold SFltb, SFcompare.
  destruct (Z.compare_spec (-46) ef) as [ Heq | Hlt | Hgt ];
    [ | reflexivity | exfalso; lia ].
  (* same exponent: the mantissa decides *)
  assert (H105 : Zdigits2 M = 105) by lia.
  assert (He : e = -52) by lia.
  specialize (Hmf ltac:(lia)).
  replace (Zdigits2 M + e - 99 - (e + -46)) with 52 in Hmf by lia.
  change (2 ^ 52) with 4503599627370496 in Hmf.
  assert (Hlow : 7036874417766401 <= M / 4503599627370496).
  { apply Z.div_le_lower_bound; [ lia | ]. unfold M. lia. }
  assert (Hcmp : (7036874417766400 < mf)%positive) by lia.
  apply Pos.compare_lt_iff in Hcmp. unfold Pos.compare in Hcmp.
  rewrite Hcmp. reflexivity.
Qed.

(** The quotient, exponent and location integer division starts from. *)
Lemma SFdiv_core_int_eq (ma mb : positive) :
  let '(q, e, l) := SFdiv_core_binary prec emax (Z.pos ma) 0 (Z.pos mb) 0 in
  e = Z.min (fexp prec emax (Zdigits2 (Z.pos ma) - Zdigits2 (Z.pos mb))) 0 /\
  exists r,
    Z.pos ma * 2 ^ (- e) = Z.pos mb * q + r /\ 0 <= r < Z.pos mb /\
    l = new_location (Z.pos mb) r.
Proof.
  unfold SFdiv_core_binary.
  rewrite !Z.add_0_r. change (0 - 0) with 0.
  set (e := Z.min (fexp prec emax (Zdigits2 (Z.pos ma) - Zdigits2 (Z.pos mb))) 0).
  assert (He : e <= 0) by (unfold e; lia).
  set (m' := match 0 - e with
             | Z.pos _ => Z.shiftl (Z.pos ma) (0 - e)
             | 0 => Z.pos ma
             | Z.neg _ => 0
             end).
  assert (Hm' : m' = Z.pos ma * 2 ^ (- e)).
  { unfold m'. destruct (0 - e) as [ | p | p ] eqn:Es; [ | | lia ].
    - replace (- e) with 0 by lia. lia.
    - rewrite Z.shiftl_mul_pow2 by lia. replace (- e) with (Z.pos p) by lia.
      reflexivity. }
  clearbody m'.
  pose proof (Z_div_mod m' (Z.pos mb) ltac:(lia)) as Hdiv.
  destruct (Z.div_eucl m' (Z.pos mb)) as [q r].
  destruct Hdiv as [Hq Hr].
  split; [ reflexivity | ].
  exists r. rewrite <- Hm'. auto.
Qed.

Lemma new_location_inexact (b r : Z) :
  r <> 0 -> exists c, new_location b r = loc_Inexact c.
Proof.
  intros Hr. unfold new_location, new_location_even, new_location_odd.
  destruct (Z.even b); destruct (Z.eqb_spec r 0); try contradiction; eauto.
Qed.

Lemma new_location_above_half (b r : Z) :
  r <> 0 -> b < 2 * r -> new_location b r = loc_Inexact Gt.
Proof.
  intros Hr Hb. unfold new_location, new_location_even, new_location_odd.
  destruct (Z.even b); destruct (Z.eqb_spec r 0); try contradiction.
  - destruct (Z.compare_spec (2 * r) b); [ lia | lia | reflexivity ].
  - destruct (Z.compare_spec (2 * r + 1) b); [ lia | lia | reflexivity ].
Qed.

(** The rounded quotient of two positive integers, the divisor below
    [2^53] and the dividend above it, is above one. *)
Lemma quotient_above_one (ma mb : positive) :
  Z.pos mb < Z.pos ma -> Z.pos mb < 2 ^ 53 ->
  above_one (SFdiv prec emax (S754_finite false ma 0) (S754_finite false mb 0)).
Proof.
  intros Hab Hb. cbn [SFdiv xorb].
  pose proof (SFdiv_core_int ma mb) as Hcore.
  pose proof (SFdiv_core_int_eq ma mb) as Heq.
  destruct (SFdiv_core_binary prec emax (Z.pos ma) 0 (Z.pos mb) 0) as [[q e] l].
  destruct Hcore as (Hq & He0 & Hup & Hfexp).
  destruct Heq as (He & r & Hdiv & Hr & Hl).
  set (d1 := Zdigits2 (Z.pos ma)) in *. set (d2 := Zdigits2 (Z.pos mb)) in *.
  assert (Hd2 : 0 < d2 <= 53).
  { split; [ unfold d2; cbn; lia | apply Zdigits2_le; lia ]. }
  assert (Hd12 : d2 <= d1) by (apply Zdigits2_monotone; lia).
  assert (Ha : 2 ^ (d1 - 1) <= Z.pos ma < 2 ^ d1).
  { split; [ apply Zdigits2_ge; unfold d1; lia | apply Zdigits2_le; unfold d1; lia ]. }
  assert (Hbb : 2 ^ (d2 - 1) <= Z.pos mb < 2 ^ d2).
  { split; [ apply Zdigits2_ge; unfold d2; lia | apply Zdigits2_le; unfold d2; lia ]. }
  change (2 ^ 53) with 9007199254740992 in *.
  (* the quotient is at least one: [1 <= Zdigits2 q + e] *)
  assert (Hone : 2 ^ (- e) <= q).
  { assert (0 < 2 ^ (- e)) by (apply Z.pow_pos_nonneg; lia). nia. }
  assert (Hmag : 1 <= Zdigits2 q + e).
  { assert (- e + 1 <= Zdigits2 q); [ | lia ].
    apply Zdigits2_ge; [ lia | lia | ].
    replace (- e + 1 - 1) with (- e) by lia. exact Hone. }
  assert (Hqpos : 0 < q).
  { assert (0 < 2 ^ (- e)) by (apply Z.pow_pos_nonneg; lia). lia. }
  assert (Hemin : -53 <= e) by (unfold fexp, emin, prec, emax in He; lia).
  destruct (Z_le_gt_dec 2 (Zdigits2 q + e)) as [Hbig | Hsmall].
  - (* two or more: the exponent alone decides *)
    destruct (binary_round_aux_lower false q e l Hqpos Hfexp)
      as [ -> | (mf & ef & -> & Hef & _) ];
      [ unfold fexp, emin, prec, emax; lia | left; reflexivity | ].
    right. exists mf, ef. split; [ reflexivity | left ].
    unfold fexp, emin, prec, emax in Hef. lia.
  - (* between one and two *)
    assert (Hdq : Zdigits2 q = 1 - e) by lia.
    assert (Hqr : 2 ^ (- e) <= q < 2 ^ (1 - e)).
    { split; [ exact Hone | apply Zdigits2_le; lia ]. }
    assert (HE0 : fexp prec emax (Zdigits2 q + e) = -52)
      by (rewrite Hdq; unfold fexp, emin, prec, emax; lia).
    assert (Hcases : e = -53 \/ e = -52).
    { rewrite HE0 in Hfexp. lia. }
    destruct Hcases as [ -> | -> ].
    + (* one shift *)
      change (2 ^ (- -53)) with 9007199254740992 in *.
      change (2 ^ (1 - -53)) with 18014398509481984 in *.
      assert (Hq1 : 9007199254740993 <= q) by nia.
      destruct (Z.eq_dec q 9007199254740993) as [ -> | Hne ].
      * assert (Hr0 : r <> 0) by lia.
        destruct (new_location_inexact (Z.pos mb) r Hr0) as [c Hc].
        rewrite Hl, Hc. right.
        exists 4503599627370497%positive, (-52).
        split; [ destruct c; vm_compute; reflexivity | right; split; [ reflexivity | ] ].
        vm_compute. discriminate.
      * destruct (binary_round_aux_lower false q (-53) l Hqpos Hfexp)
          as [ -> | (mf & ef & -> & Hef & Hmf) ];
          [ rewrite HE0, Hdq; lia | left; reflexivity | ].
        right. exists mf, ef. split; [ reflexivity | ].
        rewrite HE0 in Hef, Hmf.
        destruct (Z.eq_dec ef (-52)) as [ Hef52 | ]; [ right | left; lia ].
        split; [ exact Hef52 | ].
        specialize (Hmf Hef52).
        change (2 ^ (-52 - -53)) with 2 in Hmf.
        change (2 ^ 52 + 1) with 4503599627370497.
        assert (4503599627370497 <= q / 2)
          by (apply Z.div_le_lower_bound; lia).
        lia.
    + (* no shift *)
      change (2 ^ (- -52)) with 4503599627370496 in *.
      change (2 ^ (1 - -52)) with 9007199254740992 in *.
      destruct (Z.eq_dec q 4503599627370496) as [ -> | Hne ].
      * assert (Hgt : new_location (Z.pos mb) r = loc_Inexact Gt)
          by (apply new_location_above_half; lia).
        rewrite Hl, Hgt. right.
        exists 4503599627370497%positive, (-52).
        split; [ vm_compute; reflexivity | right; split; [ reflexivity | ] ].
        vm_compute. discriminate.
      * destruct (binary_round_aux_lower false q (-52) l Hqpos Hfexp)
          as [ -> | (mf & ef & -> & Hef & Hmf) ];
          [ rewrite HE0, Hdq; lia | left; reflexivity | ].
        right. exists mf, ef. split; [ reflexivity | ].
        rewrite HE0 in Hef, Hmf.
        destruct (Z.eq_dec ef (-52)) as [ Hef52 | ]; [ right | left; lia ].
        split; [ exact Hef52 | ].
        specialize (Hmf Hef52).
        change (2 ^ (-52 - -52)) with 1 in Hmf. rewrite Z.div_1_r in Hmf.
        change (2 ^ 52 + 1) with 4503599627370497. lia.
Qed.

End BinaryRound.

(** ** Non-negative floats

    Sums and products of non-negative floats, one factor positive and
    finite, are non-negative numbers: never NaN. *)

Module FloatSign.

Import FloatRank.

Lemma nonneg_number (x : float) : nonneg x -> is_nan x = false.
Proof.
  unfold nonneg. intros H. apply FloatOrder.not_nan_spec.
  intros E. rewrite E in H. exact H.
Qed.

Lemma positive_finite_nonneg (x : float) : positive_finite x -> nonneg x.
Proof.
  intros (m & e & E). unfold nonneg. rewrite E. reflexivity.
Qed.

Lemma mul_nonneg (x c : float) :
  nonneg x -> positive_finite c -> nonneg (x * c)%float.
Proof.
  unfold nonneg. intros Hx (m & e & Ec).
  rewrite mul_spec, Ec. unfold SF64mul.
  destruct (Prim2SF x) as [ s | s | | s mx ex ]; cbn [signed_number] in Hx;
    try contradiction; subst s; cbn [SFmul xorb]; try reflexivity.
  apply BinaryRound.binary_round_aux_signed. lia.
Qed.

Lemma add_nonneg (x y : float) : nonneg x -> nonneg y -> nonneg (x + y)%float.
Proof.
  unfold nonneg. intros Hx Hy.
  rewrite add_spec. unfold SF64add.
  destruct (Prim2SF x) as [ s | s | | s mx ex ]; cbn [signed_number] in Hx;
    try contradiction; subst s;
    destruct (Prim2SF y) as [ s | s | | s my ey ]; cbn [signed_number] in Hy;
    try contradiction; subst s; cbn [SFadd]; try reflexivity.
  cbn [cond_Zopp Z.add binary_normalize]. unfold binary_round.
  destruct (shl_align _ _ _) as [mz ez].
  apply BinaryRound.binary_round_aux_signed. lia.
Qed.

Lemma positive_nonneg (x : float) : (0 <? x)%float = true -> nonneg x.
Proof.
  unfold nonneg. rewrite FloatAxioms.ltb_spec.
  change (Prim2SF 0) with (S754_zero false). unfold SFltb.
  destruct (Prim2SF x) as [ s | [ | ] | | [ | ] m e ]; cbn;
    try discriminate; reflexivity.
Qed.

Lemma constants_positive_finite :
  positive_finite 100 /\ positive_finite 75 /\ positive_finite 50 /\
  positive_finite 25 /\ positive_finite 0.50 /\ positive_finite 0.40 /\
  positive_finite 0.30 /\ positive_finite 0.20 /\ positive_finite 0.10.
Proof.
  repeat split; eexists; eexists; vm_compute; reflexivity.
Qed.

Lemma zero_nonneg : nonneg 0.
Proof.
  reflexivity.
Qed.

End FloatSign.

(** ** Results in the exception monad *)

Lemma bind_Ok {A B : Type} (m : result A) (k : A -> result B) (b : B) :
  bind m k = Ok b -> exists a, m = Ok a /\ k a = Ok b.
Proof.
  destruct m as [a | e]; cbn; [ eauto | discriminate ].
Qed.

Lemma int_truediv_not_zero_division (a b : Z) :
  b <> 0%Z -> Py.int_truediv a b <> Raise ZeroDivisionError.
Proof.
  intros Hb. unfold Py.int_truediv.
  destruct (Z.eqb_spec b 0) as [E | _]; [ contradiction | ].
  destruct (Py.rounded_quotient a b); discriminate.
Qed.

(** What true division returns is the rounded quotient itself. *)
Lemma int_truediv_Ok (a b : Z) (q : float) :
  Py.int_truediv a b = Ok q ->
  b <> 0%Z /\ Prim2SF q = Py.rounded_quotient a b /\
  forall s, Py.rounded_quotient a b <> S754_infinity s.
Proof.
  unfold Py.int_truediv.
  destruct (Z.eqb_spec b 0) as [E | E]; [ discriminate | ].
  pose proof (BinaryRound.SFdiv_int_valid a b) as Hv.
  fold (Py.rounded_quotient a b) in Hv.
  intros H. split; [ exact E | ].
  assert (Hq : q = SF2Prim (Py.rounded_quotient a b) /\
               forall s, Py.rounded_quotient a b <> S754_infinity s).
  { destruct (Py.rounded_quotient a b) as [ s | s | | s m e ];
      [ | discriminate | | ]; injection H as <-; (split; [ reflexivity | discriminate ]). }
  destruct Hq as [-> Hfin].
  split; [ apply Prim2SF_SF2Prim, Hv | exact Hfin ].
Qed.

(** True division overflows only on a dividend of 1024 bits or more. *)
Lemma int_truediv_in_range (a b : Z) :
  b <> 0%Z -> (Z.abs a < 2 ^ 1023)%Z -> exists q, Py.int_truediv a b = Ok q.
Proof.
  intros Hb Ha. unfold Py.int_truediv.
  destruct (Z.eqb_spec b 0) as [E | _]; [ contradiction | ].
  pose proof (BinaryRound.SFdiv_int_finite a b Hb Ha) as Hfin.
  fold (Py.rounded_quotient a b) in Hfin.
  destruct (Py.rounded_quotient a b) as [ s | s | | s m e ]; eauto.
  exfalso. apply (Hfin s). reflexivity.
Qed.

(** ** Prize tiers *)

(** With a total below [2^53], a remaining count above it gives more than
    one hundred percent. *)
Lemma percent_above_100 (t : PrizeTier) (p : float) :
  (0 < total t < 2 ^ 53)%Z -> (total t < remaining t)%Z ->
  percent_remaining t = Ok p -> (100 <? p)%float = true.
Proof.
  intros Htot Hrem. unfold percent_remaining.
  destruct (Z.eqb_spec (total t) 0) as [ | _ ]; [ lia | ].
  intros H. apply bind_Ok in H as (q & Hq & [= <-]).
  apply int_truediv_Ok in Hq as (_ & Eq & _).
  rewrite FloatAxioms.ltb_spec, mul_spec, Eq.
  change (Prim2SF 100) with (S754_finite false 7036874417766400 (-46)).
  apply BinaryRound.times_100_above.
  - apply BinaryRound.SFdiv_int_valid.
  - unfold Py.rounded_quotient.
    destruct (total t) as [ | mb | mb ]; [ lia | | lia ].
    destruct (remaining t) as [ | ma | ma ]; [ lia | | lia ].
    apply BinaryRound.quotient_above_one; lia.
Qed.

(** C8, counterexample: with a remaining count of [10^400] against a total
    of one the division overflows and [percent_remaining] raises
    [OverflowError]; with [2^53 + 1] remaining of [2^53] the quotient is
    halfway to the next float, rounds to one, and the result is exactly
    [100], not more. *)
Lemma percent_remaining_raises_or_stays_at_100 :
  percent_remaining (Sample.tier 1 1 (10 ^ 400)) = Raise OverflowError /\
  (2 ^ 53 < 2 ^ 53 + 1)%Z /\
  percent_remaining (Sample.tier 1 (2 ^ 53) (2 ^ 53 + 1)) = Ok 100%float /\
  (100 <? 100)%float = false.
Proof.
  split; [ vm_compute; reflexivity | ].
  split; [ lia | ].
  split; vm_compute; reflexivity.
Qed.

(** C8, as amended: [percent_remaining] never divides by zero.  It is [0]
    when [total] is [0]; otherwise it is the true quotient
    [remaining / total], rounded to binary64, times [100].  The only
    exception it can raise is the [OverflowError] of that division, raised
    exactly when the rounded quotient is infinite, which takes a remaining
    count of 1024 bits or more.  A remaining count above the total is not
    an error, and with a total below [2^53] the result then exceeds
    [100]. *)
Theorem percent_remaining_guarded (t : PrizeTier) :
  (total t = 0%Z -> percent_remaining t = Ok 0%float) /\
  (total t <> 0%Z ->
     percent_remaining t =
       (q <- Py.int_truediv (remaining t) (total t) ;;
        Ok (q * 100)%float)%result) /\
  percent_remaining t <> Raise ZeroDivisionError /\
  (raises (percent_remaining t) <->
     total t <> 0%Z /\
     exists s, Py.rounded_quotient (remaining t) (total t) = S754_infinity s) /\
  ((Z.abs (remaining t) < 2 ^ 1023)%Z ->
   exists p, percent_remaining t = Ok p) /\
  ((0 < total t < 2 ^ 53)%Z -> (total t < remaining t)%Z ->
   forall p, percent_remaining t = Ok p -> (100 <? p)%float = true).
Proof.
  split; [ | split; [ | split; [ | split; [ | split ] ] ] ].
  - unfold percent_remaining. intros ->. reflexivity.
  - unfold percent_remaining. intros H.
    destruct (Z.eqb_spec (total t) 0); [ contradiction | reflexivity ].
  - unfold percent_remaining.
    destruct (Z.eqb_spec (total t) 0) as [ E | E ]; [ discriminate | ].
    pose proof (int_truediv_not_zero_division (remaining t) (total t) E) as Hz.
    destruct (Py.int_truediv (remaining t) (total t)) as [ q | [ | ] ];
      cbn [bind]; [ discriminate | congruence | discriminate ].
  - unfold percent_remaining, raises, Py.int_truediv.
    destruct (Z.eqb_spec (total t) 0) as [ E | E ].
    + split; [ intros [e He]; discriminate | intros [H _]; contradiction ].
    + destruct (Py.rounded_quotient (remaining t) (total t))
        as [ s | s | | s m e ]; cbn [bind].
      * split; [ intros [e He]; discriminate | intros [_ [s' H]]; discriminate ].
      * split; [ intros _; split; [ exact E | eauto ] | ].
        intros _; exists OverflowError; reflexivity.
      * split; [ intros [e He]; discriminate | intros [_ [s' H]]; discriminate ].
      * split; [ intros [e' He]; discriminate | intros [_ [s' H]]; discriminate ].
  - intros Hrange. unfold percent_remaining.
    destruct (Z.eqb_spec (total t) 0) as [ E | E ]; [ eauto | ].
    destruct (int_truediv_in_range (remaining t) (total t) E Hrange) as [q ->].
    cbn [bind]. eauto.
  - intros Htot Hrem p Hp. eapply percent_above_100; eassumption.
Qed.

Lemma percent_remaining_guarded_witness :
  (0 < total (Sample.tier 1 2 3) < 2 ^ 53)%Z /\
  (total (Sample.tier 1 2 3) < remaining (Sample.tier 1 2 3))%Z /\
  percent_remaining (Sample.tier 1 2 3) = Ok 150%float /\
  (100 <? 150)%float = true.
Proof.
  assert (Hp : percent_remaining (Sample.tier 1 2 3) = Ok 150%float)
    by (vm_compute; reflexivity).
  assert (Htot : (0 < total (Sample.tier 1 2 3) < 2 ^ 53)%Z) by (cbn; lia).
  assert (Hrem : (total (Sample.tier 1 2 3) < remaining (Sample.tier 1 2 3))%Z)
    by (cbn; lia).
  split; [ exact Htot | split; [ exact Hrem | split; [ exact Hp | ] ] ].
  destruct (percent_remaining_guarded (Sample.tier 1 2 3))
    as (_ & _ & _ & _ & _ & Habove).
  exact (Habove Htot Hrem _ Hp).
Defined.

(** C5, counterexample: on a fifty dollar ticket the break-even range runs
    from 100 to 500, so a five hundred dollar tier is a break-even tier and
    a small win at once. *)
Lemma break_even_overlaps_small_win :
  (0 <=? 50)%float = true /\
  is_break_even_tier Sample.fifty_dollar_tier 50 = true /\
  is_small_win_tier Sample.fifty_dollar_tier = true.
Proof.
  repeat split; vm_compute; reflexivity.
Qed.

(** C5, as amended: no tier is a small win and a medium win at once, and
    a break-even tier is neither of them when the break-even ceiling, ten
    times the ticket price, is below 500, or the break-even floor, twice
    the ticket price, is above 10000; then at most one of the three
    predicates holds. *)
Theorem tier_ranges_disjoint_when_apart (t : PrizeTier) (ticket_price : float) :
  (is_small_win_tier t && is_medium_win_tier t = false) /\
  ((ticket_price * 10 <? 500)%float = true \/
   (10000 <? ticket_price * 2)%float = true ->
   is_break_even_tier t ticket_price && is_small_win_tier t = false /\
   is_break_even_tier t ticket_price && is_medium_win_tier t = false).
Proof.
  unfold is_small_win_tier, is_medium_win_tier, is_break_even_tier.
  split.
  - destruct (500 <=? value t)%float; cbn [andb]; [ | reflexivity ].
    destruct (value t <=? 1000)%float eqn:H1; cbn [andb]; [ | reflexivity ].
    destruct (2000 <=? value t)%float eqn:H2; cbn [andb]; [ | reflexivity ].
    exfalso.
    assert (H : (2000 <=? 1000)%float = true) by (eapply FloatOrder.leb_trans; eassumption).
    vm_compute in H; discriminate.
  - intros Hc. cbv zeta.
    destruct (ticket_price * 2 <=? value t)%float eqn:H0; cbn [andb];
      [ | split; reflexivity ].
    destruct (value t <=? ticket_price * 10)%float eqn:H1; cbn [andb];
      [ | split; reflexivity ].
    destruct Hc as [ Hc | Hc ].
    + assert (Hv : (value t <? 500)%float = true)
        by (eapply FloatOrder.leb_ltb_trans; eassumption).
      split.
      * destruct (500 <=? value t)%float eqn:H2; cbn [andb]; [ | reflexivity ].
        apply FloatOrder.ltb_not_leb in Hv; congruence.
      * destruct (2000 <=? value t)%float eqn:H2; cbn [andb]; [ | reflexivity ].
        exfalso.
        assert (H : (2000 <? 500)%float = true)
          by (eapply FloatOrder.leb_ltb_trans; eassumption).
        vm_compute in H; discriminate.
    + assert (Hv : (10000 <? value t)%float = true)
        by (eapply FloatOrder.ltb_leb_trans; eassumption).
      split.
      * destruct (500 <=? value t)%float; cbn [andb]; [ | reflexivity ].
        destruct (value t <=? 1000)%float eqn:H2; [ | reflexivity ].
        exfalso.
        assert (H : (10000 <? 1000)%float = true)
          by (eapply FloatOrder.ltb_leb_trans; eassumption).
        vm_compute in H; discriminate.
      * destruct (2000 <=? value t)%float; cbn [andb]; [ | reflexivity ].
        destruct (value t <=? 10000)%float eqn:H2; [ | reflexivity ].
        apply FloatOrder.ltb_not_leb in Hv; congruence.
Qed.

Lemma tier_ranges_disjoint_when_apart_witness :
  (5 * 10 <? 500)%float = true /\
  is_break_even_tier (Sample.tier 20 100 40) 5 = true /\
  is_break_even_tier (Sample.tier 20 100 40) 5 && is_small_win_tier (Sample.tier 20 100 40) = false /\
  is_break_even_tier (Sample.tier 20 100 40) 5 && is_medium_win_tier (Sample.tier 20 100 40) = false.
Proof.
  split; [ reflexivity | split; [ reflexivity | ] ].
  apply (proj2 (tier_ranges_disjoint_when_apart (Sample.tier 20 100 40) 5)).
  left; reflexivity.
Defined.

(** ** Top and bottom prize *)

Lemma max_from_first_maximal (l before mid : list PrizeTier) (best : PrizeTier) :
  Spec.numbers value (best :: l) ->
  Forall (fun u => (value u <? value best)%float = true) before ->
  Forall (fun u => (value u <=? value best)%float = true) mid ->
  Spec.first_maximal (before ++ best :: mid ++ l) (Py.max_from value best l).
Proof.
  revert before mid best.
  induction l as [ | x l IH ]; intros before mid best Hnum Hbefore Hmid.
  - exists before, mid. rewrite app_nil_r. auto.
  - cbn [Py.max_from].
    inversion Hnum as [ | ? ? Hbest Hrest ]; subst.
    inversion Hrest as [ | ? ? Hx Hl ]; subst.
    destruct (value best <? value x)%float eqn:Hlt.
    + replace (before ++ best :: mid ++ x :: l)
        with ((before ++ best :: mid) ++ x :: [] ++ l)
        by (rewrite <- app_assoc; reflexivity).
      apply IH.
      * constructor; assumption.
      * apply Forall_app; split; [ | constructor ].
        -- eapply Forall_impl; [ | exact Hbefore ].
           intros u Hu; cbv beta in Hu. eapply FloatOrder.ltb_trans; eassumption.
        -- exact Hlt.
        -- eapply Forall_impl; [ | exact Hmid ].
           intros u Hu; cbv beta in Hu. eapply FloatOrder.leb_ltb_trans; eassumption.
      * constructor.
    + replace (before ++ best :: mid ++ x :: l)
        with (before ++ best :: (mid ++ [x]) ++ l)
        by (rewrite <- (app_assoc mid); reflexivity).
      apply IH.
      * constructor; assumption.
      * exact Hbefore.
      * apply Forall_app; split; [ exact Hmid | ].
        constructor; [ | constructor ].
        apply FloatOrder.not_ltb_leb; assumption.
Qed.

Lemma min_from_first_minimal (l before mid : list PrizeTier) (best : PrizeTier) :
  Spec.numbers value (best :: l) ->
  Forall (fun u => (value best <? value u)%float = true) before ->
  Forall (fun u => (value best <=? value u)%float = true) mid ->
  Spec.first_minimal (before ++ best :: mid ++ l) (Py.min_from value best l).
Proof.
  revert before mid best.
  induction l as [ | x l IH ]; intros before mid best Hnum Hbefore Hmid.
  - exists before, mid. rewrite app_nil_r. auto.
  - cbn [Py.min_from].
    inversion Hnum as [ | ? ? Hbest Hrest ]; subst.
    inversion Hrest as [ | ? ? Hx Hl ]; subst.
    destruct (value x <? value best)%float eqn:Hlt.
    + replace (before ++ best :: mid ++ x :: l)
        with ((before ++ best :: mid) ++ x :: [] ++ l)
        by (rewrite <- app_assoc; reflexivity).
      apply IH.
      * constructor; assumption.
      * apply Forall_app; split; [ | constructor ].
        -- eapply Forall_impl; [ | exact Hbefore ].
           intros u Hu; cbv beta in Hu. eapply FloatOrder.ltb_trans; eassumption.
        -- exact Hlt.
        -- eapply Forall_impl; [ | exact Hmid ].
           intros u Hu; cbv beta in Hu. eapply FloatOrder.ltb_leb_trans; eassumption.
      * constructor.
    + replace (before ++ best :: mid ++ x :: l)
        with (before ++ best :: (mid ++ [x]) ++ l)
        by (rewrite <- (app_assoc mid); reflexivity).
      apply IH.
      * constructor; assumption.
      * exact Hbefore.
      * apply Forall_app; split; [ exact Hmid | ].
        constructor; [ | constructor ].
        apply FloatOrder.not_ltb_leb; assumption.
Qed.

(** C9: for a non-empty tier collection whose values are numbers,
    [get_top_prize] returns the first tier in collection order whose value
    is maximal and [get_bottom_prize] the first whose value is minimal. *)
Theorem top_and_bottom_prize_first_in_order (g : GameData) :
  prize_tiers g <> [] ->
  Spec.numbers value (prize_tiers g) ->
  exists top bottom,
    get_top_prize g = Some top /\
    Spec.first_maximal (prize_tiers g) top /\
    get_bottom_prize g = Some bottom /\
    Spec.first_minimal (prize_tiers g) bottom.
Proof.
  unfold get_top_prize, get_bottom_prize.
  destruct (prize_tiers g) as [ | t rest ]; [ congruence | ].
  intros _ Hnum.
  exists (Py.max_from value t rest), (Py.min_from value t rest).
  split; [ reflexivity | split; [ | split; [ reflexivity | ] ] ].
  - apply (max_from_first_maximal rest [] [] t); [ assumption | constructor | constructor ].
  - apply (min_from_first_minimal rest [] [] t); [ assumption | constructor | constructor ].
Qed.

Lemma top_and_bottom_prize_first_in_order_witness :
  get_top_prize (Sample.game "905" 5 Sample.tied) = Some (Sample.tier 20 10 1) /\
  get_bottom_prize (Sample.game "905" 5 Sample.tied) = Some (Sample.tier 5 10 2) /\
  exists top bottom,
    get_top_prize (Sample.game "905" 5 Sample.tied) = Some top /\
    Spec.first_maximal Sample.tied top /\
    get_bottom_prize (Sample.game "905" 5 Sample.tied) = Some bottom /\
    Spec.first_minimal Sample.tied bottom.
Proof.
  split; [ reflexivity | split; [ reflexivity | ] ].
  apply (top_and_bottom_prize_first_in_order (Sample.game "905" 5 Sample.tied)).
  - discriminate.
  - repeat constructor.
Defined.

(** ** Differential *)

(** C4: [calculate_differential] is the top prize's percent remaining minus
    the bottom prize's, and [0.0] when either prize is absent; the result is
    signed: for the tiers [$1 (total 10, remaining 10)] and
    [$1,000,000 (total 5, remaining 1)] it is [-80.0]. *)
Theorem differential_top_minus_bottom :
  (forall g : GameData,
      (get_top_prize g = None \/ get_bottom_prize g = None ->
       calculate_differential g = Ok 0%float) /\
      (forall top bottom,
          get_top_prize g = Some top -> get_bottom_prize g = Some bottom ->
          calculate_differential g =
            (top_pct <- percent_remaining top ;;
             bottom_pct <- percent_remaining bottom ;;
             Ok (top_pct - bottom_pct)%float)%result)) /\
  (exists top bottom,
      get_top_prize Sample.two_tier = Some top /\
      get_bottom_prize Sample.two_tier = Some bottom /\
      percent_remaining top = Ok 20%float /\
      percent_remaining bottom = Ok 100%float) /\
  calculate_differential Sample.two_tier = Ok (-80)%float /\
  (-80 <? 0)%float = true.
Proof.
  split; [ | split; [ | split ] ].
  - intros g. unfold calculate_differential. split.
    + intros [H | H]; rewrite H; [ reflexivity | ].
      destruct (get_top_prize g); reflexivity.
    + intros top bottom Ht Hb. rewrite Ht, Hb. reflexivity.
  - exists (Sample.tier 1000000 5 1), (Sample.tier 1 10 10).
    repeat split; vm_compute; reflexivity.
  - vm_compute; reflexivity.
  - reflexivity.
Qed.

(** ** Loss minimization *)

Lemma sum_from (l : list Z) (acc : Z) :
  fold_left Z.add l acc = (acc + Py.sum l)%Z.
Proof.
  unfold Py.sum. revert acc.
  induction l as [ | x l IH ]; intros acc; cbn [fold_left].
  - lia.
  - rewrite (IH (acc + x)%Z), (IH (0 + x)%Z). lia.
Qed.

Lemma sum_nonneg (l : list Z) :
  Forall (fun x => (0 <= x)%Z) l -> (0 <= Py.sum l)%Z.
Proof.
  induction 1 as [ | x l Hx _ IH ].
  - reflexivity.
  - unfold Py.sum. cbn [fold_left]. rewrite sum_from. lia.
Qed.

Lemma totals_nonneg (f : PrizeTier -> bool) (tiers : list PrizeTier) :
  Forall (fun t => (0 <= total t)%Z) tiers ->
  (0 <= Py.sum (map total (filter f tiers)))%Z.
Proof.
  intros H. apply sum_nonneg, Forall_map.
  apply Forall_forall. intros t Ht. apply filter_In in Ht.
  rewrite Forall_forall in H. apply H, Ht.
Qed.

(** The percentage the code computes for one tier group, against the
    specification's. *)
Lemma group_percent_summed (group : list PrizeTier) :
  (0 <= Py.sum (map total group))%Z ->
  match group with
  | [] => Ok 0%float
  | _ :: _ =>
      if (0 <? Py.sum (map total group))%Z
      then (q <- Py.int_truediv (Py.sum (map remaining group))
                                (Py.sum (map total group)) ;;
            Ok (q * 100)%float)%result
      else Ok 0%float
  end = Spec.summed_percent group.
Proof.
  intros Hsum. unfold Spec.summed_percent.
  destruct group as [ | t group ]; [ reflexivity | ].
  destruct (Z.ltb_spec 0 (Py.sum (map total (t :: group)))) as [Hlt | Hge];
    destruct (Z.eqb_spec (Py.sum (map total (t :: group))) 0) as [Heq | Hne];
    try reflexivity; lia.
Qed.

(** C3: for a game whose totals are non-negative,
    [calculate_loss_minimization_score] is
    [be_pct*0.50 + sw_pct*0.30 + mw_pct*0.20], each sub-percent being the
    summed remaining over the summed total, times [100], of the break-even,
    small-win and medium-win tiers, and [0] for an empty group or a zero
    summed total.  On a five dollar ticket with break-even tiers at 80 of
    100, small wins at 40 of 100 and medium wins at 10 of 50 the score is
    [56.0]. *)
Theorem loss_minimization_weighted_blend :
  (forall g : GameData,
      Forall (fun t => (0 <= total t)%Z) (prize_tiers g) ->
      calculate_loss_minimization_score g =
        (be_pct <- Spec.summed_percent (get_break_even_tiers g) ;;
         sw_pct <- Spec.summed_percent (get_small_win_tiers g) ;;
         mw_pct <- Spec.summed_percent (get_medium_win_tiers g) ;;
         Ok (be_pct * 0.50 + sw_pct * 0.30 + mw_pct * 0.20)%float)%result) /\
  (ticket_price Sample.five_dollar = 5%float /\
   Py.sum (map remaining (get_break_even_tiers Sample.five_dollar)) = 80%Z /\
   Py.sum (map total (get_break_even_tiers Sample.five_dollar)) = 100%Z /\
   Py.sum (map remaining (get_small_win_tiers Sample.five_dollar)) = 40%Z /\
   Py.sum (map total (get_small_win_tiers Sample.five_dollar)) = 100%Z /\
   Py.sum (map remaining (get_medium_win_tiers Sample.five_dollar)) = 10%Z /\
   Py.sum (map total (get_medium_win_tiers Sample.five_dollar)) = 50%Z /\
   calculate_loss_minimization_score Sample.five_dollar = Ok 56%float).
Proof.
  split.
  - intros g Htot. unfold calculate_loss_minimization_score.
    rewrite <- (group_percent_summed (get_break_even_tiers g))
      by (apply totals_nonneg; exact Htot).
    rewrite <- (group_percent_summed (get_small_win_tiers g))
      by (apply totals_nonneg; exact Htot).
    rewrite <- (group_percent_summed (get_medium_win_tiers g))
      by (apply totals_nonneg; exact Htot).
    destruct (get_break_even_tiers g), (get_small_win_tiers g),
      (get_medium_win_tiers g); reflexivity.
  - repeat split; vm_compute; reflexivity.
Qed.

Lemma loss_minimization_weighted_blend_witness :
  Forall (fun t => (0 <= total t)%Z) (prize_tiers Sample.five_dollar) /\
  calculate_loss_minimization_score Sample.five_dollar =
    (be_pct <- Spec.summed_percent (get_break_even_tiers Sample.five_dollar) ;;
     sw_pct <- Spec.summed_percent (get_small_win_tiers Sample.five_dollar) ;;
     mw_pct <- Spec.summed_percent (get_medium_win_tiers Sample.five_dollar) ;;
     Ok (be_pct * 0.50 + sw_pct * 0.30 + mw_pct * 0.20)%float)%result.
Proof.
  assert (H : Forall (fun t => (0 <= total t)%Z) (prize_tiers Sample.five_dollar))
    by (repeat constructor; cbn; lia).
  split; [ exact H | ].
  exact (proj1 loss_minimization_weighted_blend Sample.five_dollar H).
Defined.

(** ** A game without tiers *)

Lemma empty_million_health (g : GameData) :
  prize_tiers g = [] -> calculate_million_health g = Ok (0%Z, 0%Z, 0%float).
Proof.
  intros Hempty. unfold calculate_million_health, get_million_plus_tiers.
  rewrite Hempty. reflexivity.
Qed.

Lemma empty_loss_minimization (g : GameData) :
  prize_tiers g = [] -> calculate_loss_minimization_score g = Ok 0%float.
Proof.
  intros Hempty.
  unfold calculate_loss_minimization_score, get_break_even_tiers,
    get_small_win_tiers, get_medium_win_tiers.
  rewrite Hempty. reflexivity.
Qed.

Lemma empty_differential (g : GameData) :
  prize_tiers g = [] -> calculate_differential g = Ok 0%float.
Proof.
  intros Hempty. unfold calculate_differential, get_top_prize.
  rewrite Hempty. reflexivity.
Qed.

Lemma empty_bottom_depletion (g : GameData) :
  prize_tiers g = [] -> calculate_bottom_depletion g = Ok 0%float.
Proof.
  intros Hempty. unfold calculate_bottom_depletion, get_bottom_prize.
  rewrite Hempty. reflexivity.
Qed.

(** C6: for a game whose tier collection is empty no metric accessor raises:
    million health is [(0, 0, 0.0)], the loss minimization score [0], the
    differential and the bottom depletion [0.0], top and bottom prize are
    absent, and the category is AVOID, by the rule [million_pct < 30]. *)
Theorem empty_game_neutral_metrics (g : GameData) :
  prize_tiers g = [] ->
  calculate_million_health g = Ok (0%Z, 0%Z, 0%float) /\
  calculate_loss_minimization_score g = Ok 0%float /\
  calculate_differential g = Ok 0%float /\
  calculate_bottom_depletion g = Ok 0%float /\
  get_top_prize g = None /\
  get_bottom_prize g = None /\
  categorize_game g = Ok "AVOID"%string /\
  Spec.first_match (Spec.category_rules 0 0 0) "WATCH" = "AVOID"%string /\
  (0 <? 30)%float = true.
Proof.
  intros Hempty.
  pose proof (empty_million_health g Hempty) as Hm.
  pose proof (empty_differential g Hempty) as Hd.
  pose proof (empty_bottom_depletion g Hempty) as Hb.
  repeat split; try assumption.
  - apply empty_loss_minimization, Hempty.
  - unfold get_top_prize; rewrite Hempty; reflexivity.
  - unfold get_bottom_prize; rewrite Hempty; reflexivity.
  - unfold categorize_game. rewrite Hm, Hb, Hd. reflexivity.
Qed.

Lemma empty_game_neutral_metrics_witness :
  prize_tiers Sample.empty = [] /\
  calculate_million_health Sample.empty = Ok (0%Z, 0%Z, 0%float) /\
  calculate_loss_minimization_score Sample.empty = Ok 0%float /\
  calculate_differential Sample.empty = Ok 0%float /\
  calculate_bottom_depletion Sample.empty = Ok 0%float /\
  get_top_prize Sample.empty = None /\
  get_bottom_prize Sample.empty = None /\
  categorize_game Sample.empty = Ok "AVOID"%string /\
  Spec.first_match (Spec.category_rules 0 0 0) "WATCH" = "AVOID"%string /\
  (0 <? 30)%float = true.
Proof.
  split; [ reflexivity | ].
  apply (empty_game_neutral_metrics Sample.empty). reflexivity.
Defined.

(** ** Categorization *)

(** C2: [categorize_game] evaluates its rules in order, the first match
    winning, and returns exactly one of HOT, WATCH and AVOID: HOT if
    [million_pct >= 70] and the differential is positive; else HOT if
    [million_pct > bottom_depletion + 10]; else AVOID if [million_pct < 30];
    else AVOID if [million_pct < bottom_depletion - 15]; else WATCH.  With
    [million_pct = 75], differential [-5] and bottom depletion [50] the
    first rule fails, the second fires and the game is HOT. *)
Theorem categorize_first_match_wins (g : GameData) :
  (forall (rem tot : Z) (million_pct bottom_pct diff : float),
      calculate_million_health g = Ok (rem, tot, million_pct) ->
      calculate_bottom_depletion g = Ok bottom_pct ->
      calculate_differential g = Ok diff ->
      exists label : string,
        categorize_game g = Ok label /\
        label = Spec.first_match
                  (Spec.category_rules million_pct bottom_pct diff) "WATCH" /\
        (label = "HOT" \/ label = "WATCH" \/ label = "AVOID")%string /\
        (let rule1 := (70 <=? million_pct)%float && (0 <? diff)%float in
         let rule2 := (bottom_pct + 10 <? million_pct)%float in
         let rule3 := (million_pct <? 30)%float in
         let rule4 := (million_pct <? bottom_pct - 15)%float in
         (rule1 = true -> label = "HOT"%string) /\
         (rule1 = false -> rule2 = true -> label = "HOT"%string) /\
         (rule1 = false -> rule2 = false -> rule3 = true ->
          label = "AVOID"%string) /\
         (rule1 = false -> rule2 = false -> rule3 = false -> rule4 = true ->
          label = "AVOID"%string) /\
         (rule1 = false -> rule2 = false -> rule3 = false -> rule4 = false ->
          label = "WATCH"%string)) /\
        (million_pct = 75%float -> diff = (-5)%float -> bottom_pct = 50%float ->
         (70 <=? million_pct)%float && (0 <? diff)%float = false /\
         (bottom_pct + 10 <? million_pct)%float = true /\
         label = "HOT"%string)) /\
  (raises (calculate_million_health g) \/
   raises (calculate_bottom_depletion g) \/
   raises (calculate_differential g) ->
   raises (categorize_game g)).
Proof.
  split.
  - intros rem tot million_pct bottom_pct diff Hm Hb Hd.
    unfold categorize_game. rewrite Hm, Hb, Hd. cbn [bind].
    unfold Spec.category_rules; cbn [Spec.first_match]; cbv zeta.
    destruct ((70 <=? million_pct)%float && (0 <? diff)%float) eqn:R1.
    { eexists; split; [ reflexivity | ]. split; [ reflexivity | ].
      split; [ auto | ]. split.
      - repeat split; intros; try reflexivity; discriminate.
      - intros -> -> ->. vm_compute in R1. discriminate. }
    destruct (bottom_pct + 10 <? million_pct)%float eqn:R2.
    { eexists; split; [ reflexivity | ]. split; [ reflexivity | ].
      split; [ auto | ]. split.
      - repeat split; intros; try reflexivity; discriminate.
      - intros -> -> ->. repeat split. }
    destruct (million_pct <? 30)%float eqn:R3.
    { eexists; split; [ reflexivity | ]. split; [ reflexivity | ].
      split; [ auto | ]. split.
      - repeat split; intros; try reflexivity; discriminate.
      - intros -> -> ->. vm_compute in R2. discriminate. }
    destruct (million_pct <? bottom_pct - 15)%float eqn:R4.
    { eexists; split; [ reflexivity | ]. split; [ reflexivity | ].
      split; [ auto | ]. split.
      - repeat split; intros; try reflexivity; discriminate.
      - intros -> -> ->. vm_compute in R2. discriminate. }
    eexists; split; [ reflexivity | ]. split; [ reflexivity | ].
    split; [ auto | ]. split.
    + repeat split; intros; try reflexivity; discriminate.
    + intros -> -> ->. vm_compute in R2. discriminate.
  - unfold categorize_game, raises.
    destruct (calculate_million_health g) as [ [[rem tot] pct] | e1 ];
      cbn [bind]; [ | eauto ].
    destruct (calculate_bottom_depletion g) as [ b | e2 ];
      cbn [bind]; [ | eauto ].
    destruct (calculate_differential g) as [ d | e3 ]; cbn [bind]; [ | eauto ].
    intros [ [e H] | [ [e H] | [e H] ] ]; discriminate.
Qed.

Lemma categorize_first_match_wins_witness :
  calculate_million_health Sample.precedence = Ok (300%Z, 400%Z, 75%float) /\
  calculate_bottom_depletion Sample.precedence = Ok 50%float /\
  calculate_differential Sample.precedence = Ok (-5)%float /\
  categorize_game Sample.precedence = Ok "HOT"%string.
Proof.
  assert (Hm : calculate_million_health Sample.precedence
               = Ok (300%Z, 400%Z, 75%float)) by (vm_compute; reflexivity).
  assert (Hb : calculate_bottom_depletion Sample.precedence = Ok 50%float)
    by (vm_compute; reflexivity).
  assert (Hd : calculate_differential Sample.precedence = Ok (-5)%float)
    by (vm_compute; reflexivity).
  split; [ exact Hm | split; [ exact Hb | split; [ exact Hd | ] ] ].
  destruct (proj1 (categorize_first_match_wins Sample.precedence)
              _ _ _ _ _ Hm Hb Hd)
    as (label & Hcat & _ & _ & _ & Hhot).
  destruct (Hhot eq_refl eq_refl eq_refl) as (_ & _ & ->).
  exact Hcat.
Defined.

(** ** Composite score *)

(** [max(0, min(100, x))] clamps [x] to the interval from 0 to 100; a NaN
    comes out as 100. *)
Lemma max_min_clamped (x : float) :
  Spec.clamped 0 100 x (Py.max2 0 (Py.min2 100 x)).
Proof.
  unfold Spec.clamped, Py.max2, Py.min2.
  destruct (x <? 100)%float eqn:Hhi.
  - destruct (0 <? x)%float eqn:Hlo.
    + split; [ split; apply FloatOrder.ltb_leb; assumption | ].
      split; [ intros H; apply FloatOrder.leb_not_ltb in H; congruence | ].
      split; [ intros H; apply FloatOrder.leb_not_ltb in H; congruence | ].
      reflexivity.
    + split; [ split; reflexivity | ].
      split; [ reflexivity | ].
      split; [ intros H; apply FloatOrder.leb_not_ltb in H; congruence | ].
      intros H; congruence.
  - change (0 <? 100)%float with true. cbv iota.
    split; [ split; reflexivity | ].
    split; [ | split; [ reflexivity | intros _ H; congruence ] ].
    intros H.
    assert (Hx : (x <? 100)%float = true)
      by (eapply FloatOrder.leb_ltb_trans; [ exact H | reflexivity ]).
    congruence.
Qed.

Section Scoring.

Variable datetime : Type.
Variable strptime : string -> string -> option datetime.
Variable days_until_now : datetime -> Z.

#[local] Abbreviation age := (days_since_launch datetime strptime days_until_now).
#[local] Abbreviation composite :=
  (calculate_composite_score datetime strptime days_until_now).

(** C1: [calculate_composite_score] is
    [million_pct*0.40 + loss_min*0.30 + diff_norm*0.20 + freshness*0.10],
    with [million_pct] the third component of the million health,
    [loss_min] the loss minimization score, [diff_norm] the value
    [(differential + 30) * (100/60)] clamped to the interval from 0 to 100,
    and [freshness] the step function of [days_since_launch]: 100 under 30
    days, 75 under 90, 50 under 180, 25 from 180 on, and 50 when the age is
    absent. *)
Theorem composite_score_weighted_sum (g : GameData) :
  (forall (rem tot : Z) (million_pct loss_min diff : float),
      calculate_million_health g = Ok (rem, tot, million_pct) ->
      calculate_loss_minimization_score g = Ok loss_min ->
      calculate_differential g = Ok diff ->
      exists diff_norm freshness : float,
        Spec.clamped 0 100 ((diff + 30) * (100 / 60))%float diff_norm /\
        Spec.freshness_step (age g) freshness /\
        composite g =
          Ok (million_pct * 0.40 + loss_min * 0.30 +
              diff_norm * 0.20 + freshness * 0.10)%float) /\
  (raises (calculate_million_health g) \/
   raises (calculate_loss_minimization_score g) \/
   raises (calculate_differential g) ->
   raises (composite g)).
Proof.
  split.
  - intros rem tot million_pct loss_min diff Hm Hl Hd.
    unfold calculate_composite_score. rewrite Hm, Hl, Hd. cbn [bind]. cbv zeta.
    eexists; eexists.
    split; [ apply max_min_clamped | ].
    split; [ | reflexivity ].
    unfold Spec.freshness_step.
    destruct (age g) as [ days | ]; [ | reflexivity ].
    destruct (Z.ltb_spec days 30); [ repeat split; intros; (reflexivity || lia) | ].
    destruct (Z.ltb_spec days 90); [ repeat split; intros; (reflexivity || lia) | ].
    destruct (Z.ltb_spec days 180); repeat split; intros; (reflexivity || lia).
  - unfold calculate_composite_score, raises.
    destruct (calculate_million_health g) as [ [[rem tot] pct] | e1 ];
      cbn [bind]; [ | eauto ].
    destruct (calculate_loss_minimization_score g) as [ lm | e2 ];
      cbn [bind]; [ | eauto ].
    destruct (calculate_differential g) as [ d | e3 ]; cbn [bind]; [ | eauto ].
    intros [ [e H] | [ [e H] | [e H] ] ]; discriminate.
Qed.

(** C10: a game with no tiers and no start date scores exactly [15.0], not
    [0]: the zero differential normalizes to 50, which weighs in as
    [50*0.20 = 10], and the unknown age counts as freshness 50, which
    weighs in as [50*0.10 = 5], while million health and loss minimization
    are both 0. *)
Theorem empty_undated_game_scores_15 (g : GameData) :
  prize_tiers g = [] ->
  start_date g = None ->
  composite g = Ok 15%float /\
  calculate_million_health g = Ok (0%Z, 0%Z, 0%float) /\
  calculate_loss_minimization_score g = Ok 0%float /\
  calculate_differential g = Ok 0%float /\
  age g = None /\
  Py.max2 0 (Py.min2 100 ((0 + 30) * (100 / 60)))%float = 50%float /\
  (50 * 0.20)%float = 10%float /\
  (50 * 0.10)%float = 5%float /\
  (0 * 0.40 + 0 * 0.30 + 10 + 5)%float = 15%float.
Proof.
  intros Hempty Hdate.
  pose proof (empty_million_health g Hempty) as Hm.
  pose proof (empty_loss_minimization g Hempty) as Hl.
  pose proof (empty_differential g Hempty) as Hd.
  assert (Hdays : age g = None)
    by (unfold days_since_launch; rewrite Hdate; reflexivity).
  split; [ | repeat split; assumption ].
  unfold calculate_composite_score. rewrite Hm, Hl, Hd, Hdays. reflexivity.
Qed.

End Scoring.

Lemma composite_score_weighted_sum_witness :
  calculate_million_health Sample.precedence = Ok (300%Z, 400%Z, 75%float) /\
  calculate_loss_minimization_score Sample.precedence = Ok 0%float /\
  calculate_differential Sample.precedence = Ok (-5)%float /\
  exists diff_norm freshness : float,
    Spec.clamped 0 100 ((-5 + 30) * (100 / 60))%float diff_norm /\
    Spec.freshness_step
      (days_since_launch Z Sample.no_date Sample.same_day Sample.precedence)
      freshness /\
    calculate_composite_score Z Sample.no_date Sample.same_day Sample.precedence =
      Ok (75 * 0.40 + 0 * 0.30 + diff_norm * 0.20 + freshness * 0.10)%float.
Proof.
  assert (Hm : calculate_million_health Sample.precedence
               = Ok (300%Z, 400%Z, 75%float)) by (vm_compute; reflexivity).
  assert (Hl : calculate_loss_minimization_score Sample.precedence = Ok 0%float)
    by (vm_compute; reflexivity).
  assert (Hd : calculate_differential Sample.precedence = Ok (-5)%float)
    by (vm_compute; reflexivity).
  split; [ exact Hm | split; [ exact Hl | split; [ exact Hd | ] ] ].
  exact (proj1 (composite_score_weighted_sum Z Sample.no_date Sample.same_day
                  Sample.precedence) _ _ _ _ _ Hm Hl Hd).
Defined.

Lemma empty_undated_game_scores_15_witness :
  prize_tiers Sample.empty = [] /\
  start_date Sample.empty = None /\
  calculate_composite_score Z Sample.no_date Sample.same_day Sample.empty
  = Ok 15%float.
Proof.
  split; [ reflexivity | split; [ reflexivity | ] ].
  exact (proj1 (empty_undated_game_scores_15 Z Sample.no_date Sample.same_day
                  Sample.empty eq_refl eq_refl)).
Defined.

(** ** Sorting by key, descending and stable *)

Section SortReverse.

Context {A : Type} (key : A -> float).

Lemma insert_desc_permutation (x : A) (l : list A) :
  Permutation (x :: l) (Py.insert_desc key x l).
Proof.
  induction l as [ | y l IH ]; cbn [Py.insert_desc].
  - apply Permutation_refl.
  - destruct (key x <? key y)%float.
    + eapply perm_trans; [ apply perm_swap | apply perm_skip, IH ].
    + apply Permutation_refl.
Qed.

Lemma sort_reverse_permutation (l : list A) :
  Permutation l (Py.sort_reverse key l).
Proof.
  induction l as [ | x l IH ]; cbn [Py.sort_reverse].
  - apply perm_nil.
  - eapply perm_trans; [ apply perm_skip, IH | apply insert_desc_permutation ].
Qed.

Lemma numbers_permutation (l l' : list A) :
  Permutation l l' -> Spec.numbers key l -> Spec.numbers key l'.
Proof.
  intros Hp Hn. unfold Spec.numbers in *.
  eapply Permutation_Forall; eassumption.
Qed.

Lemma insert_desc_descending (x : A) (l : list A) :
  is_nan (key x) = false ->
  Spec.numbers key l ->
  Spec.descending key l ->
  Spec.descending key (Py.insert_desc key x l).
Proof.
  unfold Spec.descending, Spec.numbers. intros Hx Hn Hs.
  induction Hs as [ | y l Hs IH Hy ]; cbn [Py.insert_desc].
  - constructor; constructor.
  - inversion Hn as [ | ? ? Hny Hnl ]; subst.
    destruct (key x <? key y)%float eqn:Hlt.
    + constructor; [ apply IH, Hnl | ].
      eapply Permutation_Forall; [ apply insert_desc_permutation | ].
      constructor; [ apply FloatOrder.ltb_leb, Hlt | exact Hy ].
    + assert (Hyx : (key y <=? key x)%float = true)
        by (apply FloatOrder.not_ltb_leb; assumption).
      constructor; [ constructor; assumption | ].
      constructor; [ exact Hyx | ].
      eapply Forall_impl; [ | exact Hy ].
      intros z Hz; cbv beta in Hz.
      eapply FloatOrder.leb_trans; eassumption.
Qed.

Lemma sort_reverse_descending (l : list A) :
  Spec.numbers key l -> Spec.descending key (Py.sort_reverse key l).
Proof.
  induction l as [ | x l IH ]; intros Hn; cbn [Py.sort_reverse].
  - constructor.
  - inversion Hn as [ | ? ? Hx Hl ]; subst.
    apply insert_desc_descending; [ exact Hx | | apply IH, Hl ].
    eapply numbers_permutation; [ apply sort_reverse_permutation | exact Hl ].
Qed.

(** Two items that equal the same key are not strictly ordered. *)
Lemma same_key_not_less (a b k : float) :
  (a =? k)%float = true -> (b =? k)%float = true -> (a <? b)%float = false.
Proof.
  rewrite !FloatOrder.eqb_leb, !andb_true_iff.
  intros [_ Hka] [Hbk _].
  apply FloatOrder.leb_not_ltb. eapply FloatOrder.leb_trans; eassumption.
Qed.

Lemma insert_desc_keeps_ties (k : float) (x : A) (l : list A) :
  filter (fun z => (key z =? k)%float) (Py.insert_desc key x l) =
  filter (fun z => (key z =? k)%float) (x :: l).
Proof.
  induction l as [ | y l IH ]; cbn [Py.insert_desc]; [ reflexivity | ].
  destruct (key x <? key y)%float eqn:Hlt; [ | reflexivity ].
  cbn [filter] in *. rewrite IH.
  destruct (key x =? k)%float eqn:Hx, (key y =? k)%float eqn:Hy;
    try reflexivity.
  rewrite (same_key_not_less _ _ _ Hx Hy) in Hlt. discriminate.
Qed.

Lemma sort_reverse_keeps_ties (l : list A) :
  Spec.ties_in_order key l (Py.sort_reverse key l).
Proof.
  intros k. induction l as [ | x l IH ]; cbn [Py.sort_reverse]; [ reflexivity | ].
  rewrite insert_desc_keeps_ties. cbn [filter]. rewrite IH. reflexivity.
Qed.

Lemma sort_reverse_of_descending (l : list A) :
  Spec.descending key l -> Py.sort_reverse key l = l.
Proof.
  unfold Spec.descending.
  induction 1 as [ | x l Hs IH Hx ]; cbn [Py.sort_reverse]; [ reflexivity | ].
  rewrite IH. destruct l as [ | y l ]; [ reflexivity | ].
  cbn [Py.insert_desc]. inversion Hx as [ | ? ? Hyx _ ]; subst.
  rewrite (FloatOrder.leb_not_ltb _ _ Hyx). reflexivity.
Qed.

Lemma filter_descending (f : A -> bool) (l : list A) :
  Spec.descending key l -> Spec.descending key (filter f l).
Proof.
  unfold Spec.descending.
  induction 1 as [ | x l Hs IH Hx ]; cbn [filter]; [ constructor | ].
  destruct (f x); [ | exact IH ].
  constructor; [ exact IH | ].
  apply Forall_forall. intros z Hz. apply filter_In in Hz.
  rewrite Forall_forall in Hx. apply Hx, Hz.
Qed.

(** A stable descending arrangement is unique: two descending lists with
    the same items and the same order among equal keys are the same list.
    Whatever stable algorithm [list.sort] runs, it returns this list. *)
Lemma stable_descending_unique (l1 l2 : list A) :
  Spec.numbers key l1 ->
  Permutation l1 l2 ->
  Spec.descending key l1 -> Spec.descending key l2 ->
  Spec.ties_in_order key l1 l2 ->
  l1 = l2.
Proof.
  unfold Spec.descending, Spec.ties_in_order.
  revert l2. induction l1 as [ | x1 t1 IH ]; intros l2 Hn Hp Hs1 Hs2 Ht.
  - apply Permutation_nil in Hp. congruence.
  - destruct l2 as [ | x2 t2 ];
      [ apply Permutation_sym, Permutation_nil in Hp; discriminate | ].
    inversion Hn as [ | ? ? Hx1 Hn1 ]; subst.
    inversion Hs1 as [ | ? ? Hs1' Hall1 ]; subst.
    inversion Hs2 as [ | ? ? Hs2' Hall2 ]; subst.
    assert (Hx2 : is_nan (key x2) = false).
    { eapply Forall_forall in Hn; [ exact Hn | ].
      eapply Permutation_in; [ apply Permutation_sym, Hp | left; reflexivity ]. }
    (* both heads carry the greatest key *)
    assert (H21 : (key x2 <=? key x1)%float = true).
    { assert (Hin : In x2 (x1 :: t1))
        by (eapply Permutation_in; [ apply Permutation_sym, Hp | left; reflexivity ]).
      destruct Hin as [ -> | Hin ]; [ apply FloatOrder.leb_refl, Hx2 | ].
      rewrite Forall_forall in Hall1. apply Hall1, Hin. }
    assert (H12 : (key x1 <=? key x2)%float = true).
    { assert (Hin : In x1 (x2 :: t2))
        by (eapply Permutation_in; [ exact Hp | left; reflexivity ]).
      destruct Hin as [ <- | Hin ]; [ apply FloatOrder.leb_refl, Hx1 | ].
      rewrite Forall_forall in Hall2. apply Hall2, Hin. }
    assert (Hhead : x1 = x2).
    { pose proof (Ht (key x1)) as Hk. cbn [filter] in Hk.
      rewrite (FloatOrder.eqb_leb (key x1) (key x1)),
        (FloatOrder.leb_refl _ Hx1) in Hk.
      rewrite (FloatOrder.eqb_leb (key x2) (key x1)), H21, H12 in Hk.
      cbn [andb] in Hk. congruence. }
    subst x2. f_equal.
    apply IH; try assumption.
    + eapply Permutation_cons_inv, Hp.
    + intros k. specialize (Ht k). cbn [filter] in Ht.
      destruct (key x1 =? k)%float; congruence.
Qed.

End SortReverse.

Lemma map_descending {A B : Type} (f : A -> B) (key : B -> float) (l : list A) :
  Spec.descending (fun x => key (f x)) l -> Spec.descending key (map f l).
Proof.
  unfold Spec.descending.
  induction 1 as [ | x l Hs IH Hx ]; cbn [map]; constructor.
  - exact IH.
  - apply Forall_map. exact Hx.
Qed.

(** ** Scores are numbers

    With non-negative remaining counts every term of the composite score is
    a non-negative float, so the score is never NaN and scores compare. *)

Lemma filter_remaining_nonneg (f : PrizeTier -> bool) (tiers : list PrizeTier) :
  Forall (fun t => (0 <= remaining t)%Z) tiers ->
  Forall (fun t => (0 <= remaining t)%Z) (filter f tiers).
Proof.
  intros H. apply Forall_forall. intros t Ht. apply filter_In in Ht.
  rewrite Forall_forall in H. apply H, Ht.
Qed.

Lemma int_truediv_nonneg (a b : Z) (q : float) :
  (0 <= a)%Z -> (0 < b)%Z -> Py.int_truediv a b = Ok q -> FloatRank.nonneg q.
Proof.
  intros Ha Hb H. apply int_truediv_Ok in H as (_ & E & _).
  unfold FloatRank.nonneg. rewrite E.
  apply BinaryRound.SFdiv_int_signed; assumption.
Qed.

Lemma guarded_percent_nonneg (rem tot : Z) (p : float) :
  (0 <= rem)%Z ->
  (if (0 <? tot)%Z
   then (q <- Py.int_truediv rem tot ;; Ok (q * 100)%float)%result
   else Ok 0%float) = Ok p ->
  FloatRank.nonneg p.
Proof.
  intros Hrem. destruct (Z.ltb_spec 0 tot) as [Htot | _].
  - intros H. apply bind_Ok in H as (q & Hq & [= <-]).
    apply FloatSign.mul_nonneg;
      [ eapply int_truediv_nonneg; eassumption
      | apply FloatSign.constants_positive_finite ].
  - intros [= <-]. apply FloatSign.zero_nonneg.
Qed.

Lemma group_percent_nonneg (group : list PrizeTier) (p : float) :
  Forall (fun t => (0 <= remaining t)%Z) group ->
  match group with
  | [] => Ok 0%float
  | t :: rest =>
      if (0 <? Py.sum (map total (t :: rest)))%Z
      then (q <- Py.int_truediv (Py.sum (map remaining (t :: rest)))
                                (Py.sum (map total (t :: rest))) ;;
            Ok (q * 100)%float)%result
      else Ok 0%float
  end = Ok p ->
  FloatRank.nonneg p.
Proof.
  intros Hrem H.
  destruct group as [ | t rest ].
  - injection H as <-. apply FloatSign.zero_nonneg.
  - eapply guarded_percent_nonneg; [ | exact H ].
    apply sum_nonneg, Forall_map, Hrem.
Qed.

Lemma million_health_nonneg (g : GameData) (rem tot : Z) (pct : float) :
  Forall (fun t => (0 <= remaining t)%Z) (prize_tiers g) ->
  calculate_million_health g = Ok (rem, tot, pct) ->
  FloatRank.nonneg pct.
Proof.
  intros Hrem. unfold calculate_million_health, get_million_plus_tiers.
  pose proof (group_percent_nonneg (filter is_million_plus (prize_tiers g)))
    as Hg.
  pose proof (filter_remaining_nonneg is_million_plus _ Hrem) as Hf.
  destruct (filter is_million_plus (prize_tiers g)) as [ | t group ].
  - intros [= <- <- <-]. apply FloatSign.zero_nonneg.
  - intros H. apply bind_Ok in H as (p & Hp & [= <- <- <-]).
    apply (Hg p Hf Hp).
Qed.

Lemma loss_minimization_nonneg (g : GameData) (score : float) :
  Forall (fun t => (0 <= remaining t)%Z) (prize_tiers g) ->
  calculate_loss_minimization_score g = Ok score ->
  FloatRank.nonneg score.
Proof.
  intros Hrem. unfold calculate_loss_minimization_score,
    get_break_even_tiers, get_small_win_tiers, get_medium_win_tiers.
  intros H.
  apply bind_Ok in H as (be & Ebe & H).
  apply bind_Ok in H as (sw & Esw & H).
  apply bind_Ok in H as (mw & Emw & H).
  injection H as <-.
  pose proof FloatSign.constants_positive_finite
    as (_ & _ & _ & _ & C50 & _ & C30 & C20 & _).
  repeat apply FloatSign.add_nonneg; apply FloatSign.mul_nonneg;
    try assumption.
  - eapply group_percent_nonneg; [ | exact Ebe ].
    apply filter_remaining_nonneg, Hrem.
  - eapply group_percent_nonneg; [ | exact Esw ].
    apply filter_remaining_nonneg, Hrem.
  - eapply group_percent_nonneg; [ | exact Emw ].
    apply filter_remaining_nonneg, Hrem.
Qed.

Lemma diff_normalized_nonneg (x : float) :
  FloatRank.nonneg (Py.max2 0 (Py.min2 100 x)).
Proof.
  unfold Py.max2.
  destruct (0 <? Py.min2 100 x)%float eqn:H.
  - apply FloatSign.positive_nonneg, H.
  - apply FloatSign.zero_nonneg.
Qed.

(** ** Ranking *)

(** The category filter of the report yields the sub-collection of the
    specification. *)
Lemma in_category_sub_collection (label : string) (ranked : list scored_game) :
  Spec.sub_collection label ranked (in_category label ranked).
Proof.
  unfold in_category.
  induction ranked as [ | [[g s] c] ranked IH ]; cbn [filter map]; [ constructor | ].
  unfold category_of at 1. cbn [snd].
  destruct (String.eqb_spec c label) as [ -> | Hne ].
  - cbn [map fst]. constructor. exact IH.
  - constructor; assumption.
Qed.

(** A sub-collection holds exactly the ranked games of its category. *)
Lemma sub_collection_In (label : string) (ranked : list scored_game)
  (sub : list (GameData * float)) :
  Spec.sub_collection label ranked sub ->
  forall g s, In (g, s) sub <-> In (g, s, label) ranked.
Proof.
  induction 1 as [ | g0 s0 ranked sub _ IH | g0 s0 c ranked sub Hne _ IH ];
    intros g s; cbn [In].
  - tauto.
  - rewrite IH. split; (intros [ E | Hin ]; [ left | right; exact Hin ]);
      congruence.
  - rewrite IH. split; [ auto | ].
    intros [ E | Hin ]; [ | exact Hin ]. congruence.
Qed.

(** A ranking has one sub-collection per category. *)
Lemma sub_collection_unique (label : string) (ranked : list scored_game)
  (sub sub' : list (GameData * float)) :
  Spec.sub_collection label ranked sub ->
  Spec.sub_collection label ranked sub' -> sub = sub'.
Proof.
  intros H. revert sub'.
  induction H as [ | g s ranked sub _ IH | g s c ranked sub Hne _ IH ];
    intros sub' H'; inversion H'; subst; try contradiction.
  - reflexivity.
  - f_equal. apply IH. assumption.
  - apply IH. assumption.
Qed.

Section Ranking.

Variable datetime : Type.
Variable strptime : string -> string -> option datetime.
Variable days_until_now : datetime -> Z.

#[local] Abbreviation composite_of :=
  (calculate_composite_score datetime strptime days_until_now).
#[local] Abbreviation scores := (score_all datetime strptime days_until_now).
#[local] Abbreviation ranked := (rank_games datetime strptime days_until_now).

(** The scored list pairs each game, in collection order, with its
    composite score and its category. *)
Lemma score_all_in_order (games : list GameData) (scored : list scored_game) :
  scores games = Ok scored ->
  map (fun x => fst (fst x)) scored = games /\
  Forall (fun x => composite_of (fst (fst x)) = Ok (score_of x) /\
                   categorize_game (fst (fst x)) = Ok (category_of x)) scored.
Proof.
  revert scored. induction games as [ | g games IH ]; intros scored; cbn [score_all].
  - intros [= <-]. split; [ reflexivity | constructor ].
  - intros H.
    apply bind_Ok in H as (s & Hs & H).
    apply bind_Ok in H as (c & Hc & H).
    apply bind_Ok in H as (rest & Hrest & H).
    injection H as <-.
    destruct (IH rest Hrest) as [Hmap Hall].
    split; [ cbn [map fst]; rewrite Hmap; reflexivity | ].
    constructor; [ split; assumption | exact Hall ].
Qed.

Lemma composite_score_nonneg (g : GameData) (score : float) :
  Forall (fun t => (0 <= remaining t)%Z) (prize_tiers g) ->
  composite_of g = Ok score ->
  FloatRank.nonneg score.
Proof.
  intros Hrem. unfold calculate_composite_score. intros H.
  apply bind_Ok in H as ([[rem tot] million_pct] & Hm & H).
  apply bind_Ok in H as (loss_min & Hl & H).
  apply bind_Ok in H as (diff & Hd & H).
  cbv zeta in H. injection H as <-.
  pose proof FloatSign.constants_positive_finite
    as (C100 & C75 & C50 & C25 & _ & C40 & C30 & C20 & C10).
  repeat apply FloatSign.add_nonneg; apply FloatSign.mul_nonneg;
    try assumption.
  - eapply million_health_nonneg; eassumption.
  - eapply loss_minimization_nonneg; eassumption.
  - apply diff_normalized_nonneg.
  - destruct (days_since_launch _ _ _ g) as [ days | ];
      [ | apply FloatSign.positive_finite_nonneg, C50 ].
    destruct (days <? 30)%Z; [ apply FloatSign.positive_finite_nonneg, C100 | ].
    destruct (days <? 90)%Z; [ apply FloatSign.positive_finite_nonneg, C75 | ].
    destruct (days <? 180)%Z; apply FloatSign.positive_finite_nonneg; assumption.
Qed.

Lemma score_all_numbers (games : list GameData) (scored : list scored_game) :
  Forall (fun g => Forall (fun t => (0 <= remaining t)%Z) (prize_tiers g)) games ->
  scores games = Ok scored ->
  Spec.numbers score_of scored.
Proof.
  intros Hgames. revert scored.
  induction Hgames as [ | g games Hg _ IH ]; intros scored; cbn [score_all].
  - intros [= <-]. constructor.
  - intros H.
    apply bind_Ok in H as (s & Hs & H).
    apply bind_Ok in H as (c & Hc & H).
    apply bind_Ok in H as (rest & Hrest & H).
    injection H as <-.
    constructor; [ | apply IH, Hrest ].
    apply FloatSign.nonneg_number. eapply composite_score_nonneg; eassumption.
Qed.

(** C7: for games whose remaining counts are non-negative, the ranking
    step sorts the scored games by composite score, descending, ties
    keeping the order of the original collection; sorting the sorted
    collection again changes nothing, and no other arrangement is both
    descending and stable; and the HOT, WATCH and AVOID sub-collections
    hold exactly the games of the sorted collection with that category,
    each with its score and in the order the sorted collection has them,
    no other list does, and each is in descending score order. *)
Theorem ranking_descending_and_stable (games : list GameData) (r : ranking) :
  Forall (fun g => Forall (fun t => (0 <= remaining t)%Z) (prize_tiers g)) games ->
  ranked games = Ok r ->
  exists scored : list scored_game,
    scores games = Ok scored /\
    map (fun x => fst (fst x)) scored = games /\
    Forall (fun x => composite_of (fst (fst x)) = Ok (score_of x) /\
                     categorize_game (fst (fst x)) = Ok (category_of x)) scored /\
    Spec.numbers score_of scored /\
    scored_games r = Py.sort_reverse score_of scored /\
    Permutation scored (scored_games r) /\
    Spec.descending score_of (scored_games r) /\
    Spec.ties_in_order score_of scored (scored_games r) /\
    Py.sort_reverse score_of (scored_games r) = scored_games r /\
    (forall other : list scored_game,
        Permutation scored other ->
        Spec.descending score_of other ->
        Spec.ties_in_order score_of scored other ->
        other = scored_games r) /\
    (Spec.sub_collection "HOT" (scored_games r) (hot_games r) /\
     Spec.sub_collection "WATCH" (scored_games r) (watch_games r) /\
     Spec.sub_collection "AVOID" (scored_games r) (avoid_games r)) /\
    (forall (label : string) (sub : list (GameData * float)),
        Spec.sub_collection label (scored_games r) sub ->
        (label = "HOT"%string -> sub = hot_games r) /\
        (label = "WATCH"%string -> sub = watch_games r) /\
        (label = "AVOID"%string -> sub = avoid_games r)) /\
    (forall (g : GameData) (s : float),
        (In (g, s) (hot_games r) <-> In (g, s, "HOT"%string) (scored_games r)) /\
        (In (g, s) (watch_games r) <-> In (g, s, "WATCH"%string) (scored_games r)) /\
        (In (g, s) (avoid_games r) <-> In (g, s, "AVOID"%string) (scored_games r))) /\
    (Spec.descending snd (hot_games r) /\
     Spec.descending snd (watch_games r) /\
     Spec.descending snd (avoid_games r)).
Proof.
  unfold rank_games. intros Hgames H.
  apply bind_Ok in H as (scored & Hscored & H).
  injection H as <-. cbn [scored_games hot_games watch_games avoid_games] in *.
  destruct (score_all_in_order games scored Hscored) as [Hmap Hall].
  pose proof (score_all_numbers games scored Hgames Hscored) as Hnum.
  assert (Hdesc : Spec.descending score_of (Py.sort_reverse score_of scored))
    by (apply sort_reverse_descending, Hnum).
  exists scored.
  split; [ exact Hscored | ]. split; [ exact Hmap | ]. split; [ exact Hall | ].
  split; [ exact Hnum | ].
  split; [ reflexivity | ].
  split; [ apply sort_reverse_permutation | ].
  split; [ exact Hdesc | ].
  split; [ apply sort_reverse_keeps_ties | ].
  split; [ apply sort_reverse_of_descending, Hdesc | ].
  split.
  { intros other Hperm Hother Hties. symmetry.
    apply (stable_descending_unique score_of).
    - eapply numbers_permutation; [ apply sort_reverse_permutation | exact Hnum ].
    - eapply perm_trans; [ apply Permutation_sym, sort_reverse_permutation | exact Hperm ].
    - exact Hdesc.
    - exact Hother.
    - intros k. rewrite (Hties k). symmetry. apply sort_reverse_keeps_ties. }
  set (sorted := Py.sort_reverse score_of scored) in *.
  pose proof (in_category_sub_collection "HOT" sorted) as Hhot.
  pose proof (in_category_sub_collection "WATCH" sorted) as Hwatch.
  pose proof (in_category_sub_collection "AVOID" sorted) as Havoid.
  split; [ split; [ exact Hhot | split; [ exact Hwatch | exact Havoid ] ] | ].
  split.
  { intros label sub Hsub.
    split; [ | split ]; intros ->; eapply sub_collection_unique; eassumption. }
  split.
  { intros g s.
    split; [ | split ]; eapply sub_collection_In; eassumption. }
  unfold in_category.
  split; [ | split ]; apply map_descending, filter_descending; exact Hdesc.
Qed.

End Ranking.

Lemma ranking_descending_and_stable_witness :
  exists r : ranking,
    rank_games Z Sample.no_date Sample.same_day Sample.slate = Ok r /\
    map (fun x => (game_number (fst (fst x)), score_of x)) (scored_games r) =
      [("902", 43.333333333333336); ("904", 21.800000000000001);
       ("900", 15); ("901", 15); ("903", 13)]%string%float /\
    exists scored : list scored_game,
      score_all Z Sample.no_date Sample.same_day Sample.slate = Ok scored /\
      map (fun x => fst (fst x)) scored = Sample.slate /\
      Spec.descending score_of (scored_games r) /\
      Spec.ties_in_order score_of scored (scored_games r) /\
      Py.sort_reverse score_of (scored_games r) = scored_games r /\
      (map (fun x => game_number (fst x)) (hot_games r) = ["902"]%string /\
       map (fun x => game_number (fst x)) (watch_games r) = [] /\
       map (fun x => game_number (fst x)) (avoid_games r)
       = ["904"; "900"; "901"; "903"]%string) /\
      (Spec.sub_collection "HOT" (scored_games r) (hot_games r) /\
       Spec.sub_collection "WATCH" (scored_games r) (watch_games r) /\
       Spec.sub_collection "AVOID" (scored_games r) (avoid_games r)) /\
      (Spec.descending snd (hot_games r) /\
       Spec.descending snd (watch_games r) /\
       Spec.descending snd (avoid_games r)).
Proof.
  destruct (rank_games Z Sample.no_date Sample.same_day Sample.slate)
    as [ r | e ] eqn:Hr; [ | vm_compute in Hr; discriminate ].
  exists r. split; [ reflexivity | ].
  assert (Hv : Ok r = Ok r) by reflexivity.
  rewrite <- Hr in Hv at 1. vm_compute in Hv. injection Hv as Hv.
  split; [ rewrite <- Hv; reflexivity | ].
  assert (Hslate : Forall (fun g => Forall (fun t => (0 <= remaining t)%Z)
                                      (prize_tiers g)) Sample.slate)
    by (repeat constructor; cbn; lia).
  destruct (ranking_descending_and_stable Z Sample.no_date Sample.same_day
              Sample.slate r Hslate Hr)
    as (scored & H1 & H2 & _ & _ & _ & _ & H3 & H4 & H5 & _ & Hsub & _ & _ & Hdesc).
  exists scored.
  split; [ exact H1 | ]. split; [ exact H2 | ]. split; [ exact H3 | ].
  split; [ exact H4 | ]. split; [ exact H5 | ].
  split; [ rewrite <- Hv; split; [ reflexivity | split; reflexivity ] | ].
  split; [ exact Hsub | exact Hdesc ].
Defined.

(** * Further properties of the code *)

(** ** The engine on counts in range *)

Lemma sum_cons (x : Z) (l : list Z) : Py.sum (x :: l) = (x + Py.sum l)%Z.
Proof.
  unfold Py.sum at 1. cbn [fold_left]. rewrite sum_from. lia.
Qed.

Lemma sum_filter_le (f : PrizeTier -> bool) (tiers : list PrizeTier) :
  Forall (fun t => (0 <= remaining t)%Z) tiers ->
  (0 <= Py.sum (map remaining (filter f tiers))
   <= Py.sum (map remaining tiers))%Z.
Proof.
  induction 1 as [ | t tiers Ht _ IH ]; [ cbn; lia | ].
  cbn [filter map]. destruct (f t); cbn [map]; rewrite !sum_cons; lia.
Qed.

Lemma remaining_le_sum (t : PrizeTier) (tiers : list PrizeTier) :
  Forall (fun t => (0 <= remaining t)%Z) tiers ->
  In t tiers ->
  (0 <= remaining t <= Py.sum (map remaining tiers))%Z.
Proof.
  induction 1 as [ | u tiers Hu Hall IH ]; intros Hin; [ contradiction | ].
  cbn [map]. rewrite sum_cons.
  pose proof (sum_nonneg (map remaining tiers)
                (proj2 (Forall_map _ _ _) Hall)) as Hs.
  destruct Hin as [ -> | Hin ]; [ lia | ].
  specialize (IH Hin). lia.
Qed.

Lemma max_from_In {A : Type} (key : A -> float) (l : list A) (best : A) :
  In (Py.max_from key best l) (best :: l).
Proof.
  revert best. induction l as [ | x l IH ]; intros best; cbn [Py.max_from].
  - left; reflexivity.
  - destruct (key best <? key x)%float.
    + right. apply IH.
    + destruct (IH best) as [ H | H ]; [ left; exact H | right; right; exact H ].
Qed.

Lemma min_from_In {A : Type} (key : A -> float) (l : list A) (best : A) :
  In (Py.min_from key best l) (best :: l).
Proof.
  revert best. induction l as [ | x l IH ]; intros best; cbn [Py.min_from].
  - left; reflexivity.
  - destruct (key x <? key best)%float.
    + right. apply IH.
    + destruct (IH best) as [ H | H ]; [ left; exact H | right; right; exact H ].
Qed.

Lemma top_prize_In (g : GameData) (t : PrizeTier) :
  get_top_prize g = Some t -> In t (prize_tiers g).
Proof.
  unfold get_top_prize. destruct (prize_tiers g) as [ | u rest ]; [ discriminate | ].
  intros [= <-]. apply max_from_In.
Qed.

Lemma bottom_prize_In (g : GameData) (t : PrizeTier) :
  get_bottom_prize g = Some t -> In t (prize_tiers g).
Proof.
  unfold get_bottom_prize. destruct (prize_tiers g) as [ | u rest ]; [ discriminate | ].
  intros [= <-]. apply min_from_In.
Qed.

Lemma percent_remaining_in_range (t : PrizeTier) :
  (Z.abs (remaining t) < 2 ^ 1023)%Z -> exists p, percent_remaining t = Ok p.
Proof.
  intros Hr. unfold percent_remaining.
  destruct (Z.eqb_spec (total t) 0) as [ E | E ]; [ eauto | ].
  destruct (int_truediv_in_range (remaining t) (total t) E Hr) as [q ->].
  cbn [bind]. eauto.
Qed.

Lemma group_percent_in_range (group : list PrizeTier) :
  (0 <= Py.sum (map remaining group) < 2 ^ 1023)%Z ->
  exists p,
    match group with
    | [] => Ok 0%float
    | t :: rest =>
        if (0 <? Py.sum (map total (t :: rest)))%Z
        then (q <- Py.int_truediv (Py.sum (map remaining (t :: rest)))
                                  (Py.sum (map total (t :: rest))) ;;
              Ok (q * 100)%float)%result
        else Ok 0%float
    end = Ok p.
Proof.
  intros Hr. destruct group as [ | t rest ]; [ eauto | ].
  destruct (Z.ltb_spec 0 (Py.sum (map total (t :: rest)))) as [ Ht | _ ]; [ | eauto ].
  destruct (int_truediv_in_range (Py.sum (map remaining (t :: rest)))
              (Py.sum (map total (t :: rest))) ltac:(lia) ltac:(lia)) as [q ->].
  cbn [bind]. eauto.
Qed.

Section InRange.

Variable datetime : Type.
Variable strptime : string -> string -> option datetime.
Variable days_until_now : datetime -> Z.

Lemma metrics_in_range (g : GameData) :
  in_range g ->
  (exists h, calculate_million_health g = Ok h) /\
  (exists s, calculate_loss_minimization_score g = Ok s) /\
  (exists d, calculate_differential g = Ok d) /\
  (exists b, calculate_bottom_depletion g = Ok b).
Proof.
  intros [Hnn Hsum].
  assert (Hgroup : forall f, exists p,
             match filter f (prize_tiers g) with
             | [] => Ok 0%float
             | t :: rest =>
                 if (0 <? Py.sum (map total (t :: rest)))%Z
                 then (q <- Py.int_truediv (Py.sum (map remaining (t :: rest)))
                                           (Py.sum (map total (t :: rest))) ;;
                       Ok (q * 100)%float)%result
                 else Ok 0%float
             end = Ok p).
  { intros f. apply group_percent_in_range.
    pose proof (sum_filter_le f _ Hnn). lia. }
  assert (Htier : forall t, In t (prize_tiers g) ->
                            exists p, percent_remaining t = Ok p).
  { intros t Hin. apply percent_remaining_in_range.
    pose proof (remaining_le_sum t _ Hnn Hin). lia. }
  split; [ | split; [ | split ] ].
  - unfold calculate_million_health, get_million_plus_tiers.
    destruct (Hgroup is_million_plus) as [p Hp].
    destruct (filter is_million_plus (prize_tiers g)) as [ | t rest ]; [ eauto | ].
    rewrite Hp. cbn [bind]. eauto.
  - unfold calculate_loss_minimization_score, get_break_even_tiers,
      get_small_win_tiers, get_medium_win_tiers.
    destruct (Hgroup (fun t => is_break_even_tier t (ticket_price g))) as [be ->].
    destruct (Hgroup is_small_win_tier) as [sw ->].
    destruct (Hgroup is_medium_win_tier) as [mw ->].
    cbn [bind]. eauto.
  - unfold calculate_differential.
    destruct (get_top_prize g) as [ top | ] eqn:Et; [ | eauto ].
    destruct (get_bottom_prize g) as [ bottom | ] eqn:Eb; [ | eauto ].
    destruct (Htier top (top_prize_In g top Et)) as [tp ->].
    destruct (Htier bottom (bottom_prize_In g bottom Eb)) as [bp ->].
    cbn [bind]. eauto.
  - unfold calculate_bottom_depletion.
    destruct (get_bottom_prize g) as [ bottom | ] eqn:Eb; [ | eauto ].
    apply Htier, (bottom_prize_In g bottom Eb).
Qed.

#[local] Abbreviation composite :=
  (calculate_composite_score datetime strptime days_until_now).

Lemma score_in_range (g : GameData) :
  in_range g ->
  (exists s, composite g = Ok s) /\ (exists c, categorize_game g = Ok c).
Proof.
  intros Hg.
  destruct (metrics_in_range g Hg)
    as ([[[rem tot] pct] Hm] & [lm Hl] & [d Hd] & [b Hb]).
  split.
  - unfold calculate_composite_score. rewrite Hm, Hl, Hd. cbn [bind]. eauto.
  - unfold categorize_game. rewrite Hm, Hb, Hd. cbn [bind].
    repeat match goal with |- context [if ?c then _ else _] => destruct c end;
      eauto.
Qed.

(** X1: for games whose remaining counts are non-negative and add up to
    less than [2^1023], nothing in the engine raises: the four metrics, the
    composite score and the category of each game are returned, and so is
    the ranking of a collection of such games. *)
Theorem engine_returns_in_range :
  (forall g : GameData,
      in_range g ->
      (exists h, calculate_million_health g = Ok h) /\
      (exists s, calculate_loss_minimization_score g = Ok s) /\
      (exists d, calculate_differential g = Ok d) /\
      (exists b, calculate_bottom_depletion g = Ok b) /\
      (exists s, composite g = Ok s) /\
      (exists c, categorize_game g = Ok c)) /\
  (forall games : list GameData,
      Forall in_range games ->
      exists r, rank_games datetime strptime days_until_now games = Ok r).
Proof.
  split.
  - intros g Hg.
    destruct (metrics_in_range g Hg) as (Hm & Hl & Hd & Hb).
    destruct (score_in_range g Hg) as (Hs & Hc).
    repeat (split; [ assumption | ]). assumption.
  - intros games Hall. unfold rank_games.
    assert (Hscored : exists scored,
               score_all datetime strptime days_until_now games = Ok scored).
    { induction Hall as [ | g games Hg _ [rest IH] ]; cbn [score_all]; [ eauto | ].
      destruct (score_in_range g Hg) as ([s ->] & [c ->]).
      rewrite IH. cbn [bind]. eauto. }
    destruct Hscored as [scored ->]. cbn [bind]. eauto.
Qed.

End InRange.

Lemma engine_returns_in_range_witness :
  Forall in_range Sample.slate /\
  exists r, rank_games Z Sample.no_date Sample.same_day Sample.slate = Ok r.
Proof.
  assert (H : Forall in_range Sample.slate).
  { repeat constructor; cbn; lia. }
  split; [ exact H | ].
  exact (proj2 (engine_returns_in_range Z Sample.no_date Sample.same_day)
               Sample.slate H).
Defined.

(** ** Signs of the metrics *)

Lemma nonneg_leb (x : float) : FloatRank.nonneg x -> (0 <=? x)%float = true.
Proof.
  unfold FloatRank.nonneg. rewrite FloatAxioms.leb_spec.
  change (Prim2SF 0) with (S754_zero false). unfold SFleb.
  destruct (Prim2SF x) as [ s | s | | s m e ]; cbn [FloatRank.signed_number];
    intros H; try contradiction; subst s; reflexivity.
Qed.

Lemma nonneg_not_negative (x : float) :
  FloatRank.nonneg x -> (x <? 0)%float = false.
Proof.
  intros H. apply FloatOrder.leb_not_ltb, nonneg_leb, H.
Qed.

Lemma percent_remaining_nonneg (t : PrizeTier) (p : float) :
  (0 <= total t)%Z -> (0 <= remaining t)%Z ->
  percent_remaining t = Ok p -> FloatRank.nonneg p.
Proof.
  intros Ht Hr. unfold percent_remaining.
  destruct (Z.eqb_spec (total t) 0) as [ E | E ].
  - intros [= <-]. apply FloatSign.zero_nonneg.
  - intros H. apply bind_Ok in H as (q & Hq & [= <-]).
    apply FloatSign.mul_nonneg;
      [ eapply int_truediv_nonneg; [ | | exact Hq ]; lia
      | apply FloatSign.constants_positive_finite ].
Qed.

Section Signs.

Variable datetime : Type.
Variable strptime : string -> string -> option datetime.
Variable days_until_now : datetime -> Z.

(** X2: with non-negative remaining counts the million percentage, the
    loss minimization score and the composite score are non-negative
    numbers: never NaN and never below zero. *)
Theorem scores_are_nonnegative_numbers (g : GameData) :
  Forall (fun t => (0 <= remaining t)%Z) (prize_tiers g) ->
  (forall rem tot pct,
      calculate_million_health g = Ok (rem, tot, pct) ->
      is_nan pct = false /\ (0 <=? pct)%float = true) /\
  (forall s,
      calculate_loss_minimization_score g = Ok s ->
      is_nan s = false /\ (0 <=? s)%float = true) /\
  (forall s,
      calculate_composite_score datetime strptime days_until_now g = Ok s ->
      is_nan s = false /\ (0 <=? s)%float = true /\ (s <? 0)%float = false).
Proof.
  intros Hrem. split; [ | split ].
  - intros rem tot pct H.
    pose proof (million_health_nonneg g rem tot pct Hrem H) as Hn.
    split; [ apply FloatSign.nonneg_number | apply nonneg_leb ]; exact Hn.
  - intros s H.
    pose proof (loss_minimization_nonneg g s Hrem H) as Hn.
    split; [ apply FloatSign.nonneg_number | apply nonneg_leb ]; exact Hn.
  - intros s H.
    pose proof (composite_score_nonneg _ _ _ g s Hrem H) as Hn.
    split; [ apply FloatSign.nonneg_number, Hn | ].
    split; [ apply nonneg_leb, Hn | apply nonneg_not_negative, Hn ].
Qed.

End Signs.

Lemma scores_are_nonnegative_numbers_witness :
  Forall (fun t => (0 <= remaining t)%Z) (prize_tiers Sample.precedence) /\
  calculate_composite_score Z Sample.no_date Sample.same_day Sample.precedence
  = Ok 43.333333333333336%float /\
  is_nan 43.333333333333336 = false /\
  (0 <=? 43.333333333333336)%float = true /\
  (43.333333333333336 <? 0)%float = false.
Proof.
  assert (H : Forall (fun t => (0 <= remaining t)%Z) (prize_tiers Sample.precedence))
    by (repeat constructor; cbn; lia).
  assert (Hs : calculate_composite_score Z Sample.no_date Sample.same_day
                 Sample.precedence = Ok 43.333333333333336%float)
    by (vm_compute; reflexivity).
  split; [ exact H | split; [ exact Hs | ] ].
  exact (proj2 (proj2 (scores_are_nonnegative_numbers Z Sample.no_date
                         Sample.same_day Sample.precedence H)) _ Hs).
Defined.

(** ** Games without a million dollar prize *)

Lemma has_million_plus_false (g : GameData) :
  has_million_plus g = false <-> get_million_plus_tiers g = [].
Proof.
  unfold has_million_plus.
  destruct (get_million_plus_tiers g) as [ | t l ]; cbn; split; congruence.
Qed.

(** X3: a game without a million-plus tier, its counts non-negative, is in
    the AVOID category whenever it is categorized: it can be neither HOT
    nor WATCH. *)
Theorem no_million_prize_is_avoid (g : GameData) (label : string) :
  has_million_plus g = false ->
  Forall (fun t => (0 <= total t)%Z /\ (0 <= remaining t)%Z) (prize_tiers g) ->
  categorize_game g = Ok label ->
  label = "AVOID"%string.
Proof.
  intros Hno Hcounts.
  apply has_million_plus_false in Hno.
  unfold categorize_game, calculate_million_health. rewrite Hno. cbn [bind].
  intros H.
  apply bind_Ok in H as (bottom_pct & Hb & H).
  apply bind_Ok in H as (diff & Hd & H).
  assert (Hn : FloatRank.nonneg bottom_pct).
  { unfold calculate_bottom_depletion in Hb.
    destruct (get_bottom_prize g) as [ bottom | ] eqn:Eb.
    - pose proof (bottom_prize_In g bottom Eb) as Hin.
      rewrite Forall_forall in Hcounts. destruct (Hcounts _ Hin) as [Ht Hr].
      eapply percent_remaining_nonneg; eassumption.
    - injection Hb as <-. apply FloatSign.zero_nonneg. }
  assert (H10 : FloatRank.positive_finite 10)
    by (eexists; eexists; vm_compute; reflexivity).
  assert (Hrule2 : (bottom_pct + 10 <? 0)%float = false).
  { apply nonneg_not_negative, FloatSign.add_nonneg;
      [ exact Hn | apply FloatSign.positive_finite_nonneg, H10 ]. }
  change ((70 <=? 0)%float) with false in H. cbn [andb] in H.
  rewrite Hrule2 in H.
  change ((0 <? 30)%float) with true in H.
  congruence.
Qed.

Lemma no_million_prize_is_avoid_witness :
  has_million_plus Sample.five_dollar = false /\
  categorize_game Sample.five_dollar = Ok "AVOID"%string.
Proof.
  assert (Hc : exists label, categorize_game Sample.five_dollar = Ok label)
    by (eexists; vm_compute; reflexivity).
  destruct Hc as [label Hc].
  split; [ reflexivity | ].
  rewrite Hc. f_equal.
  apply (no_million_prize_is_avoid Sample.five_dollar label);
    [ reflexivity | repeat constructor; cbn; lia | exact Hc ].
Defined.

(** ** Games with a million dollar prize *)

Lemma has_million_plus_true (g : GameData) :
  has_million_plus g = true ->
  exists u, In u (prize_tiers g) /\ is_million_plus u = true.
Proof.
  unfold has_million_plus, get_million_plus_tiers.
  destruct (filter is_million_plus (prize_tiers g)) as [ | u l ] eqn:E;
    [ discriminate | ].
  intros _. exists u. apply filter_In. rewrite E. left; reflexivity.
Qed.

(** X4: every game [get_million_plus_games] keeps comes from the scraped
    collection, and, its tier values being numbers, its top prize is a
    million-plus tier. *)
Theorem million_games_top_prize (all_games : list GameData) (g : GameData) :
  In g (get_million_plus_games all_games) ->
  Spec.numbers value (prize_tiers g) ->
  In g all_games /\
  exists top,
    get_top_prize g = Some top /\ In top (prize_tiers g) /\
    is_million_plus top = true.
Proof.
  unfold get_million_plus_games. intros Hin Hnum.
  apply filter_In in Hin as [Hin Hmillion]. split; [ exact Hin | ].
  destruct (has_million_plus_true g Hmillion) as (u & Hu & Hmu).
  unfold get_top_prize.
  destruct (prize_tiers g) as [ | t rest ] eqn:Et; [ contradiction | ].
  exists (Py.max_from value t rest).
  split; [ reflexivity | ]. split; [ apply max_from_In | ].
  destruct (max_from_first_maximal rest [] [] t Hnum (Forall_nil _) (Forall_nil _))
    as (before & after & Hsplit & Hbefore & Hafter).
  cbn [app] in Hsplit. rewrite Hsplit in Hu.
  unfold is_million_plus in *.
  apply in_app_or in Hu as [ Hu | [ <- | Hu ] ].
  - rewrite Forall_forall in Hbefore.
    eapply FloatOrder.leb_trans; [ exact Hmu | ].
    apply FloatOrder.ltb_leb, Hbefore, Hu.
  - exact Hmu.
  - rewrite Forall_forall in Hafter.
    eapply FloatOrder.leb_trans; [ exact Hmu | apply Hafter, Hu ].
Qed.

Lemma million_games_top_prize_witness :
  In Sample.precedence (get_million_plus_games Sample.slate) /\
  exists top,
    get_top_prize Sample.precedence = Some top /\
    In top (prize_tiers Sample.precedence) /\
    is_million_plus top = true.
Proof.
  assert (Hin : In Sample.precedence (get_million_plus_games Sample.slate))
    by (vm_compute; auto).
  split; [ exact Hin | ].
  apply (million_games_top_prize Sample.slate Sample.precedence Hin).
  repeat constructor.
Defined.

(** ** The three categories of the ranking *)

Lemma categorize_game_labels (g : GameData) (c : string) :
  categorize_game g = Ok c ->
  (c = "HOT" \/ c = "WATCH" \/ c = "AVOID")%string.
Proof.
  unfold categorize_game. intros H.
  apply bind_Ok in H as ([[rem tot] pct] & _ & H).
  apply bind_Ok in H as (b & _ & H).
  apply bind_Ok in H as (d & _ & H).
  repeat match type of H with
         | (if ?c then _ else _) = _ => destruct c
         end; injection H as <-; auto.
Qed.

Lemma filter_three_ways {A : Type} (f1 f2 f3 : A -> bool) (l : list A) :
  Forall (fun x => (f1 x = true /\ f2 x = false /\ f3 x = false) \/
                   (f1 x = false /\ f2 x = true /\ f3 x = false) \/
                   (f1 x = false /\ f2 x = false /\ f3 x = true)) l ->
  Permutation l (filter f1 l ++ filter f2 l ++ filter f3 l).
Proof.
  induction 1 as [ | x l Hx _ IH ]; [ apply perm_nil | ].
  cbn [filter].
  destruct Hx as [ (-> & -> & ->) | [ (-> & -> & ->) | (-> & -> & ->) ] ].
  - cbn [app]. apply perm_skip, IH.
  - eapply perm_trans; [ apply perm_skip, IH | ].
    apply Permutation_middle.
  - eapply perm_trans; [ apply perm_skip, IH | ].
    rewrite !app_assoc. apply Permutation_middle.
Qed.

Section Categories.

Variable datetime : Type.
Variable strptime : string -> string -> option datetime.
Variable days_until_now : datetime -> Z.

(** X5: the HOT, WATCH and AVOID sub-collections split the ranking: each
    ranked game, with its score, is in exactly one of them, so together
    they are a rearrangement of the ranking and their sizes add up to the
    number of games. *)
Theorem categories_partition_ranking (games : list GameData) (r : ranking) :
  rank_games datetime strptime days_until_now games = Ok r ->
  Permutation (map fst (scored_games r))
              (hot_games r ++ watch_games r ++ avoid_games r) /\
  (List.length (hot_games r) + List.length (watch_games r)
   + List.length (avoid_games r) = List.length games)%nat.
Proof.
  unfold rank_games. intros H.
  apply bind_Ok in H as (scored & Hscored & H).
  injection H as <-. cbn [scored_games hot_games watch_games avoid_games].
  destruct (score_all_in_order _ _ _ games scored Hscored) as [Hmap Hall].
  set (sorted := Py.sort_reverse score_of scored).
  assert (Hperm : Permutation scored sorted) by apply sort_reverse_permutation.
  assert (Hlabels : Forall (fun x => (category_of x = "HOT" \/
                                      category_of x = "WATCH" \/
                                      category_of x = "AVOID")%string) sorted).
  { eapply Permutation_Forall; [ exact Hperm | ].
    eapply Forall_impl; [ | exact Hall ].
    intros x [_ Hc]. eapply categorize_game_labels, Hc. }
  assert (Hsplit : Permutation (map fst sorted)
                     (in_category "HOT" sorted ++ in_category "WATCH" sorted
                      ++ in_category "AVOID" sorted)).
  { unfold in_category. rewrite <- !map_app. apply Permutation_map.
    apply filter_three_ways.
    eapply Forall_impl; [ | exact Hlabels ].
    intros x [ -> | [ -> | -> ] ]; cbn; auto. }
  split; [ exact Hsplit | ].
  apply Permutation_length in Hsplit.
  rewrite !length_app, length_map in Hsplit.
  apply Permutation_length in Hperm.
  apply (f_equal (@List.length GameData)) in Hmap. rewrite length_map in Hmap.
  unfold scored_game in *. lia.
Qed.

End Categories.

Lemma categories_partition_ranking_witness :
  exists r,
    rank_games Z Sample.no_date Sample.same_day Sample.slate = Ok r /\
    (List.length (hot_games r) + List.length (watch_games r)
     + List.length (avoid_games r) = 5)%nat.
Proof.
  destruct (rank_games Z Sample.no_date Sample.same_day Sample.slate)
    as [ r | e ] eqn:Hr; [ | vm_compute in Hr; discriminate ].
  exists r. split; [ reflexivity | ].
  exact (proj2 (categories_partition_ranking Z Sample.no_date Sample.same_day
                  Sample.slate r Hr)).
Defined.

(** ** The five games [main] prints *)

Lemma descending_app {A : Type} (key : A -> float) (l1 l2 : list A) :
  Spec.descending key (l1 ++ l2) ->
  Spec.descending key l1 /\
  forall x y, In x l1 -> In y l2 -> (key y <=? key x)%float = true.
Proof.
  unfold Spec.descending.
  induction l1 as [ | a l1 IH ]; cbn [app]; intros H.
  - split; [ constructor | intros x y [] ].
  - inversion H as [ | ? ? Hs Ha ]; subst.
    destruct (IH Hs) as [Hl1 Hcross].
    apply Forall_app in Ha as [Ha1 Ha2].
    split; [ constructor; assumption | ].
    intros x y [ <- | Hx ] Hy.
    + rewrite Forall_forall in Ha2. apply Ha2, Hy.
    + apply Hcross; assumption.
Qed.

Section TopFive.

Variable datetime : Type.
Variable strptime : string -> string -> option datetime.

(** The clock as [main]'s own scoring reads it, and as the scoring of the
    report reads it. *)
Variable days_until_now : datetime -> Z.
Variable days_until_report : datetime -> Z.

#[local] Abbreviation age_in_summary :=
  (days_since_launch datetime strptime days_until_now).
#[local] Abbreviation age_in_report :=
  (days_since_launch datetime strptime days_until_report).

(** The clock reaches a score through the game's age only. *)
Lemma score_all_same_ages (games : list GameData) :
  Forall (fun g => age_in_report g = age_in_summary g) games ->
  score_all datetime strptime days_until_report games
  = score_all datetime strptime days_until_now games.
Proof.
  induction 1 as [ | g games Hg _ IH ]; cbn [score_all]; [ reflexivity | ].
  unfold calculate_composite_score. rewrite Hg, IH. reflexivity.
Qed.

(** X6: the games printed under "Top 5 Opportunities" are the first five
    of the games as [main] scored and sorted them, all of them when there
    are fewer.  With non-negative remaining counts they are in descending
    score order and no game left out scores above a game listed.  The
    report scores the games again and reads the clock again: the summary
    is the first five of the report's ranking when both scorings see every
    game at the same age. *)
Theorem top_opportunities_are_best
  (games : list GameData) (top : list scored_game) :
  top_opportunities datetime strptime days_until_now games = Ok top ->
  exists scored : list scored_game,
    score_all datetime strptime days_until_now games = Ok scored /\
    top = firstn 5 (Py.sort_reverse score_of scored) /\
    List.length top = Nat.min 5 (List.length games) /\
    (Forall (fun g => Forall (fun t => (0 <= remaining t)%Z) (prize_tiers g))
            games ->
     Spec.descending score_of top /\
     forall x y,
       In x top -> In y (skipn 5 (Py.sort_reverse score_of scored)) ->
       (score_of y <=? score_of x)%float = true) /\
    (forall r : ranking,
        Forall (fun g => age_in_report g = age_in_summary g) games ->
        rank_games datetime strptime days_until_report games = Ok r ->
        top = firstn 5 (scored_games r)).
Proof.
  unfold top_opportunities. intros H.
  apply bind_Ok in H as (scored & Hscored & H).
  cbv zeta in H. injection H as <-.
  exists scored. split; [ exact Hscored | ].
  set (sorted := Py.sort_reverse score_of scored).
  split; [ reflexivity | ].
  destruct (score_all_in_order _ _ _ games scored Hscored) as [Hmap _].
  split; [ | split ].
  - change (List.length (firstn 5 sorted) = Nat.min 5 (List.length games)).
    rewrite length_firstn.
    pose proof (Permutation_length (sort_reverse_permutation score_of scored))
      as Hlen.
    apply (f_equal (@List.length GameData)) in Hmap. rewrite length_map in Hmap.
    fold sorted in Hlen. unfold scored_game in *. lia.
  - intros Hgames.
    pose proof (score_all_numbers _ _ _ games scored Hgames Hscored) as Hnum.
    assert (Hdesc : Spec.descending score_of sorted)
      by (apply sort_reverse_descending, Hnum).
    rewrite <- (firstn_skipn 5 sorted) in Hdesc.
    apply descending_app in Hdesc as [Htop Hcross].
    split; [ exact Htop | exact Hcross ].
  - intros r Hages Hr. unfold rank_games in Hr.
    rewrite (score_all_same_ages games Hages), Hscored in Hr.
    cbn [bind] in Hr. injection Hr as <-. reflexivity.
Qed.

End TopFive.

Lemma top_opportunities_are_best_witness :
  let games := Sample.slate ++ [Sample.game "906" 2 []] in
  let next_day := fun launch : Z => (launch + 1)%Z in
  exists top,
    top_opportunities Z Sample.no_date Sample.same_day games = Ok top /\
    map (fun x => game_number (fst (fst x))) top
    = ["902"; "904"; "900"; "901"; "906"]%string /\
    Spec.descending score_of top /\
    exists r,
      rank_games Z Sample.no_date next_day games = Ok r /\
      top = firstn 5 (scored_games r).
Proof.
  intros games next_day.
  destruct (top_opportunities Z Sample.no_date Sample.same_day games)
    as [ top | e ] eqn:Ht; [ | vm_compute in Ht; discriminate ].
  exists top. split; [ reflexivity | ].
  assert (Hv : Ok top = Ok top) by reflexivity.
  rewrite <- Ht in Hv at 1. vm_compute in Hv. injection Hv as Hv.
  split; [ rewrite <- Hv; reflexivity | ].
  assert (Hgames : Forall (fun g => Forall (fun t => (0 <= remaining t)%Z)
                                      (prize_tiers g)) games)
    by (repeat constructor; cbn; lia).
  assert (Hages : Forall (fun g => days_since_launch Z Sample.no_date next_day g
                                   = days_since_launch Z Sample.no_date
                                       Sample.same_day g) games)
    by (repeat constructor).
  destruct (top_opportunities_are_best Z Sample.no_date Sample.same_day next_day
              games top Ht) as (scored & _ & _ & _ & Hbest & Hreport).
  split; [ exact (proj1 (Hbest Hgames)) | ].
  destruct (rank_games Z Sample.no_date next_day games) as [ r | e ] eqn:Hr;
    [ | vm_compute in Hr; discriminate ].
  exists r. split; [ reflexivity | ].
  exact (Hreport r Hages eq_refl).
Defined.

(** The same-age condition is needed: a game that turns 30 days old
    between the two scorings is listed in the summary with a higher score
    than the report gives it. *)
Lemma top_opportunities_clock_dependent :
  exists top r,
    top_opportunities Z SampleDates.calendar (SampleDates.on_day 29)
      [SampleDates.dated] = Ok top /\
    rank_games Z SampleDates.calendar (SampleDates.on_day 30)
      [SampleDates.dated] = Ok r /\
    map score_of top = [48.333333333333336]%float /\
    map score_of (scored_games r) = [45.833333333333336]%float /\
    top <> firstn 5 (scored_games r).
Proof.
  destruct (top_opportunities Z SampleDates.calendar (SampleDates.on_day 29)
              [SampleDates.dated]) as [ top | e ] eqn:Ht;
    [ | vm_compute in Ht; discriminate ].
  destruct (rank_games Z SampleDates.calendar (SampleDates.on_day 30)
              [SampleDates.dated]) as [ r | e ] eqn:Hr;
    [ | vm_compute in Hr; discriminate ].
  exists top, r. split; [ reflexivity | ]. split; [ reflexivity | ].
  vm_compute in Ht. injection Ht as <-.
  vm_compute in Hr. injection Hr as <-.
  split; [ reflexivity | ]. split; [ reflexivity | ].
  cbn [scored_games firstn]. intros H. discriminate H.
Qed.

(** ** Unreadable start dates *)

Section Dates.

Variable datetime : Type.
Variable strptime : string -> string -> option datetime.
Variable days_until_now : datetime -> Z.

#[local] Abbreviation age := (days_since_launch datetime strptime days_until_now).
#[local] Abbreviation composite :=
  (calculate_composite_score datetime strptime days_until_now).

(** X7: [days_since_launch] is absent exactly when the start date is
    absent, empty or in none of the three accepted formats, and such a
    game scores as the same game without a start date does: a date that
    fails to parse is not an error. *)
Theorem unreadable_date_counts_as_absent (g : GameData) :
  (date_unreadable datetime strptime g <-> age g = None) /\
  (date_unreadable datetime strptime g -> composite g = composite (without_start_date g)).
Proof.
  assert (Hiff : date_unreadable datetime strptime g <-> age g = None).
  { unfold date_unreadable, days_since_launch, date_formats.
    destruct (start_date g) as [ [ | a s ] | ]; [ tauto | | tauto ].
    cbn [first_parsed]. split.
    - intros [ H | H ]; [ discriminate | ].
      rewrite !H by (cbn; auto). reflexivity.
    - intros H. right. intros fmt Hin.
      destruct (strptime (String a s) "%b %d, %Y") eqn:E1; [ discriminate | ].
      destruct (strptime (String a s) "%m/%d/%Y") eqn:E2; [ discriminate | ].
      destruct (strptime (String a s) "%Y-%m-%d") eqn:E3; [ discriminate | ].
      destruct Hin as [ <- | [ <- | [ <- | [] ] ] ]; assumption. }
  split; [ exact Hiff | ].
  intros Hun. apply Hiff in Hun.
  unfold calculate_composite_score. rewrite Hun.
  destruct g as [num name price u date st tiers]. reflexivity.
Qed.

End Dates.

Lemma unreadable_date_counts_as_absent_witness :
  let g := {| game_number := "907"; game_name := "Dated"; ticket_price := 5;
              url := "u"; start_date := Some "soon"%string;
              status := EmptyString;
              prize_tiers := prize_tiers Sample.precedence |} in
  date_unreadable Z Sample.no_date g /\
  calculate_composite_score Z Sample.no_date Sample.same_day g
  = calculate_composite_score Z Sample.no_date Sample.same_day
      (without_start_date g).
Proof.
  intros g.
  assert (Hun : date_unreadable Z Sample.no_date g) by (right; reflexivity).
  split; [ exact Hun | ].
  exact (proj2 (unreadable_date_counts_as_absent Z Sample.no_date Sample.same_day g)
               Hun).
Defined.

(** ** The age line of a game card *)

Lemma days_old_not_unknown (s : string) :
  (s ++ " days old")%string <> "Age unknown"%string.
Proof.
  intros H.
  repeat (destruct s as [ | ? s ]; cbn in H; [ discriminate | injection H as _ H ]).
  destruct s; discriminate.
Qed.

(** X8: a game card reads "Age unknown" exactly when the age is absent or
    is zero days: a game launched today is shown without its age. *)
Theorem days_str_unknown (days : option Z) :
  days_str days = "Age unknown"%string <-> days = None \/ days = Some 0%Z.
Proof.
  unfold days_str. destruct days as [ d | ]; [ | tauto ].
  destruct (Z.eqb_spec d 0) as [ -> | Hd ]; [ tauto | ].
  split.
  - intros H. exfalso. exact (days_old_not_unknown _ H).
  - intros [ H | [= H] ]; [ discriminate | contradiction ].
Qed.

(** ** Reading prize rows *)

Section ParsedRows.

Variable strip : string -> string.
Variable float_of_str : string -> option float.
Variable int_of_str : string -> option Z.

#[local] Abbreviation row := (parse_prize_row strip float_of_str int_of_str).
#[local] Abbreviation table := (parse_prize_rows strip float_of_str int_of_str).
#[local] Abbreviation number := (parse_number strip int_of_str).

Lemma parse_prize_row_Some (cells : list string) (t : PrizeTier) :
  row cells = Some t ->
  (0 < total t)%Z /\ (value t <=? 0)%float = false /\
  total t = number (nth 2 cells EmptyString) /\
  remaining t = number (nth 3 cells EmptyString).
Proof.
  unfold parse_prize_row.
  destruct (4 <=? List.length cells)%nat; [ | discriminate ].
  destruct (String.prefix "$" (nth 0 cells EmptyString)); [ | discriminate ].
  cbn [negb].
  destruct (parse_prize_value strip float_of_str (nth 0 cells EmptyString) <=? 0)%float
    eqn:Hv; [ discriminate | ].
  destruct (Z.ltb_spec 0 (number (nth 2 cells EmptyString))) as [ Ht | ];
    [ | discriminate ].
  intros [= <-]. cbn. auto.
Qed.

Lemma parse_prize_rows_length (rows : list (list string)) :
  (List.length (table rows) <= List.length rows)%nat.
Proof.
  induction rows as [ | cells rows IH ]; cbn [parse_prize_rows List.length];
    [ lia | ].
  destruct (row cells); cbn [List.length]; lia.
Qed.

Lemma parse_prize_rows_tiers (rows : list (list string)) :
  Forall (fun t => (0 < total t)%Z /\ (value t <=? 0)%float = false) (table rows).
Proof.
  induction rows as [ | cells rows IH ]; cbn [parse_prize_rows];
    [ constructor | ].
  destruct (row cells) as [ t | ] eqn:Et; [ | exact IH ].
  constructor; [ | exact IH ].
  apply parse_prize_row_Some in Et as (Ht & Hv & _). auto.
Qed.

(** X9: a game [parse_game_section] returns has at least one tier and at
    most one per row; every tier has a positive total and a value that is
    not zero or below, so [percent_remaining] never takes its zero-total
    branch and never raises [ZeroDivisionError]; the game carries no ticket
    price and no start date yet. *)
Theorem parsed_game_tiers_have_positive_totals
  (game_number game_name status game_url : string)
  (rows : list (list string)) (g : GameData) :
  parse_game_section strip float_of_str int_of_str
    game_number game_name status game_url rows = Some g ->
  prize_tiers g = table rows /\
  prize_tiers g <> [] /\
  (List.length (prize_tiers g) <= List.length rows)%nat /\
  Forall (fun t =>
            (0 < total t)%Z /\ (value t <=? 0)%float = false /\
            percent_remaining t <> Raise ZeroDivisionError /\
            percent_remaining t
            = (q <- Py.int_truediv (remaining t) (total t) ;;
               Ok (q * 100)%float)%result)
         (prize_tiers g) /\
  ticket_price g = 0%float /\ start_date g = None.
Proof.
  unfold parse_game_section.
  pose proof (parse_prize_rows_length rows) as Hlen.
  pose proof (parse_prize_rows_tiers rows) as Htiers.
  destruct (table rows) as [ | t tiers ] eqn:Et; [ discriminate | ].
  intros [= <-]. cbn [prize_tiers ticket_price start_date].
  split; [ reflexivity | ]. split; [ discriminate | ].
  split; [ exact Hlen | ]. split; [ | split; reflexivity ].
  eapply Forall_impl; [ | exact Htiers ].
  intros u [Hu Hv]. cbv beta.
  split; [ exact Hu | ]. split; [ exact Hv | ].
  unfold percent_remaining.
  destruct (Z.eqb_spec (total u) 0) as [ | Hne ]; [ lia | ].
  split; [ | reflexivity ].
  pose proof (int_truediv_not_zero_division (remaining u) (total u) Hne) as Hz.
  destruct (Py.int_truediv (remaining u) (total u)) as [ q | e ]; cbn [bind];
    [ discriminate | exact Hz ].
Qed.

End ParsedRows.

Lemma parsed_game_tiers_have_positive_totals_witness :
  exists g,
    parse_game_section SamplePage.strip SamplePage.float_of_str
      SamplePage.int_of_str "905" "Sample" EmptyString "u" SamplePage.rows
    = Some g /\
    map total (prize_tiers g) = [4; 6000; 150000]%Z /\
    prize_tiers g <> [].
Proof.
  destruct (parse_game_section SamplePage.strip SamplePage.float_of_str
              SamplePage.int_of_str "905" "Sample" EmptyString "u"
              SamplePage.rows) as [ g | ] eqn:Eg;
    [ | vm_compute in Eg; discriminate ].
  exists g. split; [ reflexivity | ].
  destruct (parsed_game_tiers_have_positive_totals _ _ _ _ _ _ _ _ g Eg)
    as (Htiers & Hne & _).
  split; [ rewrite Htiers; vm_compute; reflexivity | exact Hne ].
Defined.

(** ** Exact percentages *)

Lemma quotient_of_equals (s : bool) (m : positive) :
  SFdiv prec emax (S754_finite s m 0) (S754_finite s m 0)
  = S754_finite false 4503599627370496 (-52).
Proof.
  cbn [SFdiv].
  pose proof (BinaryRound.SFdiv_core_int_eq m m) as Heq.
  destruct (SFdiv_core_binary prec emax (Z.pos m) 0 (Z.pos m) 0) as [[q e] l].
  destruct Heq as (He & r & Hdiv & Hr & Hl).
  rewrite Z.sub_diag in He.
  change (Z.min (fexp prec emax 0) 0) with (-53)%Z in He. subst e.
  change (2 ^ (- -53))%Z with 9007199254740992%Z in Hdiv.
  assert (Hq : q = 9007199254740992%Z /\ r = 0%Z).
  { assert (E : q = 9007199254740992%Z).
    { rewrite (Z.div_unique _ _ q r (or_introl Hr) Hdiv).
      rewrite Z.mul_comm. apply Z.div_mul. lia. }
    split; [ exact E | ]. rewrite E in Hdiv. lia. }
  destruct Hq as [-> ->]. rewrite Hl.
  replace (xorb s s) with false by (destruct s; reflexivity).
  unfold new_location, new_location_even, new_location_odd.
  destruct (Z.even (Z.pos m)); vm_compute; reflexivity.
Qed.

Lemma rounded_quotient_of_equals (a : Z) :
  a <> 0%Z ->
  Py.rounded_quotient a a = S754_finite false 4503599627370496 (-52).
Proof.
  intros Ha. unfold Py.rounded_quotient.
  destruct a as [ | m | m ]; [ contradiction | | ]; apply quotient_of_equals.
Qed.

Lemma percent_remaining_none_left (t : PrizeTier) :
  (0 < total t)%Z -> remaining t = 0%Z -> percent_remaining t = Ok 0%float.
Proof.
  intros Ht Hr. unfold percent_remaining.
  destruct (Z.eqb_spec (total t) 0) as [ | _ ]; [ lia | ].
  rewrite Hr. unfold Py.int_truediv.
  destruct (Z.eqb_spec (total t) 0) as [ | _ ]; [ lia | ].
  unfold Py.rounded_quotient.
  destruct (total t) as [ | m | m ]; [ lia | | lia ].
  reflexivity.
Qed.

(** X10: the ends of the scale are exact for counts of every size: a tier
    with all of its prizes left is at exactly [100], and a tier with none
    left is at exactly [0]. *)
Theorem percent_remaining_exact_at_ends (t : PrizeTier) :
  (total t <> 0%Z -> remaining t = total t ->
   percent_remaining t = Ok 100%float) /\
  ((0 < total t)%Z -> remaining t = 0%Z ->
   percent_remaining t = Ok 0%float).
Proof.
  split; [ | apply percent_remaining_none_left ].
  intros Ht Hr. unfold percent_remaining.
  destruct (Z.eqb_spec (total t) 0) as [ | _ ]; [ contradiction | ].
  rewrite Hr. unfold Py.int_truediv.
  destruct (Z.eqb_spec (total t) 0) as [ | _ ]; [ contradiction | ].
  rewrite (rounded_quotient_of_equals _ Ht). reflexivity.
Qed.

Lemma percent_remaining_exact_at_ends_witness :
  percent_remaining (Sample.tier 5 (10 ^ 400) (10 ^ 400)) = Ok 100%float /\
  percent_remaining (Sample.tier 5 (10 ^ 400) 0) = Ok 0%float.
Proof.
  split.
  - apply (proj1 (percent_remaining_exact_at_ends
                    (Sample.tier 5 (10 ^ 400) (10 ^ 400)))).
    + vm_compute. discriminate.
    + reflexivity.
  - apply (proj2 (percent_remaining_exact_at_ends (Sample.tier 5 (10 ^ 400) 0))).
    + vm_compute. reflexivity.
    + reflexivity.
Defined.

(** ** Unreadable counts *)

Section UnreadableCounts.

Variable strip : string -> string.
Variable float_of_str : string -> option float.
Variable int_of_str : string -> option Z.

#[local] Abbreviation row := (parse_prize_row strip float_of_str int_of_str).
#[local] Abbreviation unreadable :=
  (fun text : string => int_of_str (strip (PyStr.remove "," text)) = None).

(** X11: [parse_number] turns an unreadable count into [0] without a
    word.  A row whose total is unreadable is therefore left out, while a
    row whose remaining count is unreadable is kept as a tier with nothing
    left, at [0] percent. *)
Theorem unreadable_counts_read_as_zero (cells : list string) :
  (unreadable (nth 2 cells EmptyString) -> row cells = None) /\
  (forall t,
      row cells = Some t -> unreadable (nth 3 cells EmptyString) ->
      remaining t = 0%Z /\ percent_remaining t = Ok 0%float).
Proof.
  split.
  - intros Hun. unfold parse_prize_row, parse_number. rewrite Hun.
    destruct (4 <=? List.length cells)%nat; [ | reflexivity ].
    destruct (negb _); [ reflexivity | ].
    destruct (_ <=? 0)%float; reflexivity.
  - intros t Ht Hun.
    apply parse_prize_row_Some in Ht as (Htot & _ & _ & Hrem).
    unfold parse_number in Hrem. rewrite Hun in Hrem.
    split; [ exact Hrem | ].
    apply percent_remaining_none_left; assumption.
Qed.

End UnreadableCounts.

Lemma unreadable_counts_read_as_zero_witness :
  let parse := parse_prize_row SamplePage.strip SamplePage.float_of_str
                 SamplePage.int_of_str in
  parse (nth 4 SamplePage.rows []) = None /\
  exists t,
    parse (nth 3 SamplePage.rows []) = Some t /\
    total t = 150000%Z /\ remaining t = 0%Z /\
    percent_remaining t = Ok 0%float.
Proof.
  intros parse.
  pose proof (unreadable_counts_read_as_zero SamplePage.strip
                SamplePage.float_of_str SamplePage.int_of_str) as H.
  split.
  - apply (proj1 (H (nth 4 SamplePage.rows []))). reflexivity.
  - destruct (parse (nth 3 SamplePage.rows [])) as [ t | ] eqn:Et;
      [ | vm_compute in Et; discriminate ].
    exists t. split; [ reflexivity | ].
    assert (Hv : Some t = Some t) by reflexivity.
    rewrite <- Et in Hv at 1. vm_compute in Hv. injection Hv as Hv.
    split; [ rewrite <- Hv; reflexivity | ].
    apply (proj2 (H (nth 3 SamplePage.rows [])) t Et). reflexivity.
Defined.

(** ** The breakdown of million dollar tiers on a game card *)

Lemma first_maximal_above (tiers : list PrizeTier) (t u : PrizeTier) :
  Spec.first_maximal tiers t -> is_nan (value t) = false -> In u tiers ->
  (value u <=? value t)%float = true.
Proof.
  intros (before & after & -> & Hbefore & Hafter) Ht Hu.
  rewrite Forall_forall in Hbefore, Hafter.
  apply in_app_or in Hu as [ Hu | [ <- | Hu ] ].
  - apply FloatOrder.ltb_leb, Hbefore, Hu.
  - apply FloatOrder.leb_refl, Ht.
  - apply Hafter, Hu.
Qed.

Lemma first_maximal_unique (tiers : list PrizeTier) (t t' : PrizeTier) :
  Spec.first_maximal tiers t -> Spec.first_maximal tiers t' -> t = t'.
Proof.
  intros (before & after & -> & Hb & Ha) (before' & after' & E & Hb' & Ha').
  revert before' E Hb'.
  induction before as [ | b before IH ]; intros [ | b' before' ] E Hb';
    cbn [app] in E.
  - congruence.
  - injection E as -> ->.
    inversion Hb' as [ | ? ? Hlt _ ]; subst.
    rewrite Forall_forall in Ha.
    assert (Hle : (value t' <=? value b')%float = true)
      by (apply Ha, in_or_app; right; left; reflexivity).
    apply FloatOrder.ltb_not_leb in Hlt. congruence.
  - injection E as <- <-.
    inversion Hb as [ | ? ? Hlt _ ]; subst.
    rewrite Forall_forall in Ha'.
    assert (Hle : (value t <=? value b)%float = true)
      by (apply Ha', in_or_app; right; left; reflexivity).
    apply FloatOrder.ltb_not_leb in Hlt. congruence.
  - injection E as -> E.
    inversion Hb; subst. inversion Hb'; subst.
    eapply IH; eassumption.
Qed.

Lemma first_maximal_filter (f : PrizeTier -> bool) (tiers : list PrizeTier)
  (t : PrizeTier) :
  Spec.first_maximal tiers t -> f t = true ->
  Spec.first_maximal (filter f tiers) t.
Proof.
  intros (before & after & -> & Hb & Ha) Hf.
  exists (filter f before), (filter f after).
  rewrite filter_app. cbn [filter]. rewrite Hf.
  split; [ reflexivity | ].
  rewrite Forall_forall in Hb, Ha.
  split; apply Forall_forall; intros u Hu; apply filter_In in Hu as [Hu _]; auto.
Qed.

Lemma sort_reverse_head_first_maximal (l : list PrizeTier) (x : PrizeTier)
  (rest : list PrizeTier) :
  Spec.numbers value l ->
  Py.sort_reverse value l = x :: rest -> Spec.first_maximal l x.
Proof.
  revert x rest. induction l as [ | a l IH ]; intros x rest Hnum;
    cbn [Py.sort_reverse]; [ discriminate | ].
  inversion Hnum as [ | ? ? Ha Hl ]; subst.
  destruct (Py.sort_reverse value l) as [ | y ys ] eqn:Es.
  - cbn [Py.insert_desc]. intros [= <- <-].
    pose proof (sort_reverse_permutation value l) as Hp.
    rewrite Es in Hp. apply Permutation_sym, Permutation_nil in Hp. subst l.
    exists [], []. split; [ reflexivity | split; constructor ].
  - specialize (IH y ys Hl eq_refl).
    assert (Hy : is_nan (value y) = false).
    { unfold Spec.numbers in Hl. rewrite Forall_forall in Hl. apply Hl.
      destruct IH as (b & c & -> & _). apply in_or_app. right; left; reflexivity. }
    cbn [Py.insert_desc].
    destruct (value a <? value y)%float eqn:Hlt; intros [= <- <-].
    + destruct IH as (before & after & -> & Hb & Hafter).
      exists (a :: before), after.
      split; [ reflexivity | ]. split; [ constructor; assumption | assumption ].
    + exists [], l. split; [ reflexivity | ]. split; [ constructor | ].
      apply Forall_forall. intros u Hu.
      eapply FloatOrder.leb_trans.
      * eapply first_maximal_above; eassumption.
      * apply FloatOrder.not_ltb_leb; assumption.
Qed.

Lemma first_maximal_million (tiers : list PrizeTier) (t u : PrizeTier) :
  Spec.first_maximal tiers t -> is_nan (value t) = false ->
  In u tiers -> is_million_plus u = true -> is_million_plus t = true.
Proof.
  intros Ht Hnum Hu Hmu. unfold is_million_plus in *.
  eapply FloatOrder.leb_trans; [ exact Hmu | ].
  eapply first_maximal_above; eassumption.
Qed.

(** X12: for a game with a million dollar prize and tier values that are
    numbers, the breakdown on its card lists exactly the million-plus
    tiers, in descending value, and begins with the game's top prize. *)
Theorem million_breakdown_starts_with_top_prize (g : GameData) :
  Spec.numbers value (prize_tiers g) ->
  has_million_plus g = true ->
  Permutation (million_breakdown g) (get_million_plus_tiers g) /\
  Spec.descending value (million_breakdown g) /\
  exists top rest,
    get_top_prize g = Some top /\ million_breakdown g = top :: rest.
Proof.
  intros Hnum Hmillion. unfold million_breakdown.
  assert (Hnm : Spec.numbers value (get_million_plus_tiers g)).
  { unfold Spec.numbers, get_million_plus_tiers in *.
    rewrite Forall_forall in *. intros u Hu.
    apply filter_In in Hu as [Hu _]. auto. }
  split; [ apply Permutation_sym, sort_reverse_permutation | ].
  split; [ apply sort_reverse_descending, Hnm | ].
  destruct (has_million_plus_true g Hmillion) as (u & Hu & Hmu).
  unfold get_top_prize.
  unfold get_million_plus_tiers in *.
  destruct (prize_tiers g) as [ | t tiers ] eqn:Et; [ contradiction | ].
  set (top := Py.max_from value t tiers).
  pose proof (max_from_first_maximal tiers [] [] t Hnum
                (Forall_nil _) (Forall_nil _)) as Htop.
  cbn [app] in Htop. fold top in Htop.
  assert (Hin : In top (t :: tiers)) by apply max_from_In.
  assert (Hnan : is_nan (value top) = false).
  { unfold Spec.numbers in Hnum. rewrite Forall_forall in Hnum. auto. }
  assert (Hmt : is_million_plus top = true)
    by exact (first_maximal_million (t :: tiers) top u Htop Hnan Hu Hmu).
  assert (Hfirst : Spec.first_maximal (filter is_million_plus (t :: tiers)) top)
    by (apply first_maximal_filter; assumption).
  destruct (Py.sort_reverse value (filter is_million_plus (t :: tiers)))
    as [ | x rest ] eqn:Es.
  - pose proof (sort_reverse_permutation value
                  (filter is_million_plus (t :: tiers))) as Hp.
    rewrite Es in Hp. apply Permutation_sym, Permutation_nil in Hp.
    destruct Hfirst as (b & a & E & _). rewrite Hp in E.
    destruct b; discriminate.
  - exists top, rest. split; [ reflexivity | ].
    f_equal. eapply first_maximal_unique; [ | exact Hfirst ].
    eapply sort_reverse_head_first_maximal; eassumption.
Qed.

Lemma million_breakdown_starts_with_top_prize_witness :
  map value (million_breakdown Sample.precedence) = [2000000; 1000000]%float /\
  exists top rest,
    get_top_prize Sample.precedence = Some top /\
    million_breakdown Sample.precedence = top :: rest.
Proof.
  split; [ reflexivity | ].
  apply (million_breakdown_starts_with_top_prize Sample.precedence).
  - repeat constructor.
  - reflexivity.
Defined.

(** ** Games whose tiers share one value *)

Lemma sub_diag_finite (p : float) : is_finite p = true -> (p - p)%float = 0%float.
Proof.
  unfold is_finite, is_infinity. intros H.
  apply negb_true_iff, orb_false_iff in H as [Hnan Hinf].
  apply FloatOrder.not_nan_spec in Hnan.
  rewrite FloatAxioms.eqb_spec, abs_spec in Hinf.
  rewrite <- (SF2Prim_Prim2SF (p - p)), sub_spec.
  unfold SF64sub.
  destruct (Prim2SF p) as [ s | s | | s m e ].
  - destruct s; reflexivity.
  - discriminate Hinf.
  - contradiction.
  - cbn [SFsub]. rewrite Z.sub_diag. reflexivity.
Qed.

Lemma max_from_equal_values (t : PrizeTier) (rest : list PrizeTier) :
  Forall (fun u => value u = value t) rest -> Py.max_from value t rest = t.
Proof.
  induction 1 as [ | u rest Hu _ IH ]; cbn [Py.max_from]; [ reflexivity | ].
  rewrite Hu, FloatOrder.ltb_irrefl. exact IH.
Qed.

Lemma min_from_equal_values (t : PrizeTier) (rest : list PrizeTier) :
  Forall (fun u => value u = value t) rest -> Py.min_from value t rest = t.
Proof.
  induction 1 as [ | u rest Hu _ IH ]; cbn [Py.min_from]; [ reflexivity | ].
  rewrite Hu, FloatOrder.ltb_irrefl. exact IH.
Qed.

(** X13: in a game whose tiers all carry one value, a game with a single
    tier among them, the top prize and the bottom prize are both the first
    tier; the bottom depletion is that tier's percentage and, the
    percentage being finite, the differential is exactly [0]. *)
Theorem equal_values_zero_differential
  (g : GameData) (t : PrizeTier) (rest : list PrizeTier) (p : float) :
  prize_tiers g = t :: rest ->
  Forall (fun u => value u = value t) rest ->
  percent_remaining t = Ok p -> is_finite p = true ->
  get_top_prize g = Some t /\ get_bottom_prize g = Some t /\
  calculate_bottom_depletion g = Ok p /\
  calculate_differential g = Ok 0%float.
Proof.
  intros Et Hrest Hp Hfin.
  assert (Htop : get_top_prize g = Some t)
    by (unfold get_top_prize; rewrite Et, max_from_equal_values; auto).
  assert (Hbottom : get_bottom_prize g = Some t)
    by (unfold get_bottom_prize; rewrite Et, min_from_equal_values; auto).
  split; [ exact Htop | ]. split; [ exact Hbottom | ].
  unfold calculate_bottom_depletion, calculate_differential.
  rewrite Htop, Hbottom, Hp. cbn [bind].
  split; [ reflexivity | ]. rewrite sub_diag_finite by exact Hfin. reflexivity.
Qed.

Lemma equal_values_zero_differential_witness :
  let g := Sample.game "908" 2 [Sample.tier 1000000 4 3; Sample.tier 1000000 8 2] in
  get_top_prize g = Some (Sample.tier 1000000 4 3) /\
  get_bottom_prize g = Some (Sample.tier 1000000 4 3) /\
  calculate_bottom_depletion g = Ok 75%float /\
  calculate_differential g = Ok 0%float.
Proof.
  intros g.
  apply (equal_values_zero_differential g (Sample.tier 1000000 4 3)
           [Sample.tier 1000000 8 2] 75).
  - reflexivity.
  - repeat constructor.
  - vm_compute. reflexivity.
  - reflexivity.
Defined.
